(** * The EC2 cloud controller of nova, [nova/api/ec2/cloud.py]

    A shallow embedding of the request-translation layer: the identifier
    codec, the security-group rule canonicaliser with authorisation and
    revocation, key-pair creation and deletion, volume formatting and
    [run_instances].  Python values are modelled by the type [pyval],
    exceptions by the type [exn], and code that reads or writes the
    datastore as state-passing functions over a [World]. *)

From Stdlib Require Import ZArith String Ascii List Lia Bool DecimalString.
From stdpp Require Import gmap strings list fin_maps.

Local Open Scope string_scope.
Local Open Scope Z_scope.

(* ===================================================================== *)
(** * Python values                                                       *)
(* ===================================================================== *)

Module Py.

(** The dynamically typed values that reach the controller as request
    arguments and that the datastore holds in its columns. *)
Inductive pyval : Type :=
| PNone
| PBool (b : bool)
| PInt (z : Z)
| PStr (s : string).

(** Truth value testing: [None], [False], [0] and [''] are false. *)
Definition truthy (v : pyval) : bool :=
  match v with
  | PNone => false
  | PBool b => b
  | PInt z => negb (z =? 0)
  | PStr s => negb (String.eqb s "")
  end.

(** [a == b]; a [bool] compares as the integer it is. *)
Definition py_eqb (a b : pyval) : bool :=
  match a, b with
  | PNone, PNone => true
  | PStr s, PStr t => String.eqb s t
  | PInt x, PInt y => x =? y
  | PBool x, PBool y => Bool.eqb x y
  | PBool x, PInt y | PInt y, PBool x => (if x then 1 else 0) =? y
  | _, _ => false
  end.

(** The exceptions the controller raises or lets through. *)
Inductive exn : Type :=
| ValueError
| TypeError
| AttributeError
| KeyError (key : string)
| IndexError
| AssertionError
| NotFound
| Duplicate (msg : string)
| ApiError (msg : string)
| InvalidInputException (msg : string).

Inductive result (A : Type) : Type :=
| Ok (a : A)
| Raise (e : exn).
Arguments Ok {A} a.
Arguments Raise {A} e.

(** ** [int(s, base)] on strings

    Python 2 skips white space, reads an optional sign, skips white
    space again, reads at least one digit of the base (letters of
    either case), and allows only white space after the digits. *)

Definition is_space (c : ascii) : bool :=
  let n := N_of_ascii c in
  ((9 <=? n) && (n <=? 13))%N || (n =? 32)%N.

Definition digit_value (c : ascii) : option Z :=
  let n := Z.of_N (N_of_ascii c) in
  if (48 <=? n) && (n <=? 57) then Some (n - 48)
  else if (97 <=? n) && (n <=? 122) then Some (n - 87)
  else if (65 <=? n) && (n <=? 90) then Some (n - 55)
  else None.

Fixpoint lstrip (s : list ascii) : list ascii :=
  match s with
  | c :: s' => if is_space c then lstrip s' else s
  | [] => []
  end.

(** Reads digits of [base] from the front of [s]: the value read so
    far, how many digits were read, and what is left. *)
Fixpoint span_digits (base acc : Z) (count : nat) (s : list ascii)
  : Z * nat * list ascii :=
  match s with
  | c :: s' =>
      match digit_value c with
      | Some d =>
          if d <? base then span_digits base (acc * base + d) (S count) s'
          else (acc, count, s)
      | None => (acc, count, s)
      end
  | [] => (acc, count, [])
  end.

Definition split_sign (s : list ascii) : Z * list ascii :=
  match s with
  | "+"%char :: t => (1, t)
  | "-"%char :: t => (-1, t)
  | _ => (1, s)
  end.

Definition int_of_string (s : string) (base : Z) : result Z :=
  let '(sign, s2) := split_sign (lstrip (list_ascii_of_string s)) in
  let '(v, count, rest) := span_digits base 0 0 (lstrip s2) in
  if (count =? 0)%nat then Raise ValueError
  else if forallb is_space rest then Ok (sign * v)
  else Raise ValueError.

(** [int(v)] *)
Definition py_int (v : pyval) : result Z :=
  match v with
  | PInt z => Ok z
  | PBool b => Ok (if b then 1 else 0)
  | PStr s => int_of_string s 10
  | PNone => Raise TypeError
  end.

(** [str(v)] *)
Definition py_str (v : pyval) : string :=
  match v with
  | PNone => "None"
  | PBool true => "True"
  | PBool false => "False"
  | PInt z => NilZero.string_of_int (Z.to_int z)
  | PStr s => s
  end.

(** [s.upper()] *)
Definition upper_char (c : ascii) : ascii :=
  let n := N_of_ascii c in
  if ((97 <=? n) && (n <=? 122))%N then ascii_of_N (n - 32) else c.

Fixpoint upper (s : string) : string :=
  match s with
  | EmptyString => EmptyString
  | String c s' => String (upper_char c) (upper s')
  end.

(** [s[n:]] *)
Fixpoint slice_from (n : nat) (s : string) : string :=
  match n, s with
  | O, _ => s
  | S n', String _ s' => slice_from n' s'
  | S _, EmptyString => EmptyString
  end.

(** [s.split(sep)] for a one-character separator: the pieces between
    the separators, always at least one piece. *)
Fixpoint split_on (sep : ascii) (cur : string) (s : string) : list string :=
  match s with
  | EmptyString => [cur]
  | String c s' =>
      if Ascii.eqb c sep then cur :: split_on sep EmptyString s'
      else split_on sep (cur +:+ String c EmptyString) s'
  end.

Definition split (s : string) (sep : ascii) : list string :=
  split_on sep EmptyString s.

End Py.
Export Py.

(* ===================================================================== *)
(** * Identifier codec                                                    *)
(* ===================================================================== *)

Module Codec.

Definition alphabet : string := "0123456789abcdefghijklmnopqrstuvwxyz".

(** [alphabet[remainder]] *)
Definition digit_char (remainder : Z) : ascii :=
  match String.get (Z.to_nat remainder) alphabet with
  | Some c => c
  | None => "0"%char
  end.

(** The [while] loop of [id_to_ec2_id], one iteration per unit of
    fuel; [None] when the fuel runs out before [instance_id] is 0. *)
Fixpoint id_to_ec2_id_loop (fuel : nat) (instance_id : Z) (digits : list ascii)
  : option (list ascii) :=
  match fuel with
  | O => None
  | S fuel' =>
      if instance_id =? 0 then Some digits
      else
        let '(instance_id', remainder) := (instance_id / 36, instance_id mod 36) in
        id_to_ec2_id_loop fuel' instance_id' (digits ++ [digit_char remainder])
  end.

Definition id_to_ec2_id_fuel (fuel : nat) (instance_id : Z) : option string :=
  digits ← id_to_ec2_id_loop fuel instance_id [];
  Some ("i-" +:+ string_of_list_ascii (rev digits)).

(** Iterations that suffice for a non-negative id: one per base-36
    digit, of which there are at most [log2 n + 1], and the last test. *)
Definition enough_fuel (instance_id : Z) : nat :=
  S (S (Z.to_nat (Z.log2 instance_id))).

(** [id_to_ec2_id]: [None] stands for a loop that never ends, which is
    what the source does on a negative id. *)
Definition id_to_ec2_id (instance_id : Z) : option string :=
  id_to_ec2_id_fuel (enough_fuel instance_id) instance_id.

(** [ec2_id_to_id]: [int(ec2_id[2:], 36)] *)
Definition ec2_id_to_id (ec2_id : string) : result Z :=
  int_of_string (slice_from 2 ec2_id) 36.

(** Ids of stored records are primary keys, hence never negative, and
    on those [id_to_ec2_id] returns. *)
Definition ec2_id_of_key (id : N) : string :=
  default "i-" (id_to_ec2_id (Z.of_N id)).

End Codec.
Export Codec.

(* ===================================================================== *)
(** * Data model and the state of the world                               *)
(* ===================================================================== *)

(** The caller-identity context of a request. *)
Record RequestContext : Type := {
  ctx_user_id : string;
  ctx_project_id : string;
  ctx_is_admin : bool;        (* context.is_admin *)
  ctx_user_is_admin : bool;   (* context.user.is_admin() *)
  ctx_request_id : string
}.

(** [context.elevated()] *)
Definition elevated (context : RequestContext) : RequestContext :=
  {| ctx_user_id := ctx_user_id context;
     ctx_project_id := ctx_project_id context;
     ctx_is_admin := true;
     ctx_user_is_admin := ctx_user_is_admin context;
     ctx_request_id := ctx_request_id context |}.

Record KeyPair : Type := {
  kp_user_id : string;
  kp_name : string;
  kp_public_key : string;
  kp_fingerprint : string
}.

Record SecurityGroup : Type := {
  sg_id : Z;
  sg_name : string;
  sg_description : string;
  sg_user_id : string;
  sg_project_id : string
}.

(** A row of the ingress-rule table; the columns other than the key are
    nullable and hold what the value set of the request held. *)
Record SecurityGroupRule : Type := {
  rule_id : Z;
  rule_parent_group_id : pyval;
  rule_protocol : pyval;
  rule_from_port : pyval;
  rule_to_port : pyval;
  rule_cidr : pyval;
  rule_group_id : pyval
}.

Record Service : Type := {
  svc_host : pyval;
  svc_availability_zone : string
}.

(** Everything a request can read or change: the tables of the
    datastore, the audit log, and how many key pairs the crypto module
    has been asked to generate. *)
Record World : Type := {
  key_pairs : gmap (string * string) KeyPair;
  security_groups : list SecurityGroup;
  security_group_rules : list SecurityGroupRule;
  next_rule_id : Z;
  services : list Service;
  keys_generated : nat;
  audit_log : list string
}.

(** ** Computations that read and write the world and may raise *)

Definition M (A : Type) : Type := World → result A * World.

Definition ret {A} (a : A) : M A := λ w, (Ok a, w).
Definition raise {A} (e : exn) : M A := λ w, (Raise e, w).
Definition bind {A B} (m : M A) (k : A → M B) : M B :=
  λ w, match m w with
       | (Ok a, w') => k a w'
       | (Raise e, w') => (Raise e, w')
       end.
Definition lift {A} (r : result A) : M A := λ w, (r, w).
Definition get_world : M World := λ w, (Ok w, w).

(** [try: body  except <the exceptions handler is defined on>: handler] *)
Definition try_except {A} (body : M A) (handler : exn → option (M A)) : M A :=
  λ w, match body w with
       | (Ok a, w') => (Ok a, w')
       | (Raise e, w') =>
           match handler e with
           | Some h => h w'
           | None => (Raise e, w')
           end
       end.

Declare Scope py_scope.
Delimit Scope py_scope with py.
Notation "x <- m ;; k" := (bind m (λ x, k))
  (at level 20, m at level 99, k at level 200, only parsing) : py_scope.
Notation "' p <- m ;; k" := (bind m (λ x, match x with p => k end))
  (at level 20, p pattern, m at level 99, k at level 200, only parsing) : py_scope.
Notation "m ;; k" := (bind m (λ _, k))
  (at level 100, k at level 200, only parsing, right associativity) : py_scope.
Local Open Scope py_scope.

(** The same sequencing for code that only computes or raises. *)
Definition rbind {A B} (r : result A) (k : A → result B) : result B :=
  match r with
  | Ok a => k a
  | Raise e => Raise e
  end.

(** [LOG.audit(msg)] *)
Definition LOG_audit (msg : string) : M unit :=
  λ w, (Ok tt,
        {| key_pairs := key_pairs w;
           security_groups := security_groups w;
           security_group_rules := security_group_rules w;
           next_rule_id := next_rule_id w;
           services := services w;
           keys_generated := keys_generated w;
           audit_log := audit_log w ++ [msg] |}).

(* ===================================================================== *)
(** * The persistence collaborator, [nova.db]                             *)
(* ===================================================================== *)

Module db.

Definition with_key_pairs (kps : gmap (string * string) KeyPair) (w : World) : World :=
  {| key_pairs := kps;
     security_groups := security_groups w;
     security_group_rules := security_group_rules w;
     next_rule_id := next_rule_id w;
     services := services w;
     keys_generated := keys_generated w;
     audit_log := audit_log w |}.

Definition with_rules (rules : list SecurityGroupRule) (next : Z) (w : World) : World :=
  {| key_pairs := key_pairs w;
     security_groups := security_groups w;
     security_group_rules := rules;
     next_rule_id := next;
     services := services w;
     keys_generated := keys_generated w;
     audit_log := audit_log w |}.

(** Modelled from the spec: [db.key_pair_get] of nova/db, the read of
    the persistence collaborator keyed by (user, name), which raises
    the NotFound signal when there is no such key pair. *)
Definition key_pair_get (context : RequestContext) (user_id key_name : string)
  : M KeyPair :=
  λ w, match key_pairs w !! (user_id, key_name) with
       | Some kp => (Ok kp, w)
       | None => (Raise NotFound, w)
       end.

(** Modelled from the spec: [db.key_pair_create] of nova/db, the create
    of the persistence collaborator; the key pair is stored under its
    (user, name). *)
Definition key_pair_create (context : RequestContext) (key : KeyPair) : M KeyPair :=
  λ w, (Ok key,
        with_key_pairs (<[(kp_user_id key, kp_name key) := key]> (key_pairs w)) w).

(** Modelled from the spec: [db.key_pair_destroy] of nova/db, the
    delete of the persistence collaborator keyed by (user, name), which
    raises the NotFound signal when there is no such key pair. *)
Definition key_pair_destroy (context : RequestContext) (user_id key_name : string)
  : M unit :=
  λ w, match key_pairs w !! (user_id, key_name) with
       | Some _ => (Ok tt, with_key_pairs (delete (user_id, key_name) (key_pairs w)) w)
       | None => (Raise NotFound, w)
       end.

(** Modelled from the spec: [db.security_group_get_by_name] of nova/db,
    the read of the persistence collaborator keyed by (project, name),
    which raises the NotFound signal when there is no such group. *)
Definition security_group_get_by_name
    (context : RequestContext) (project_id group_name : pyval) : M SecurityGroup :=
  λ w, match
         List.find (λ g, py_eqb (PStr (sg_project_id g)) project_id
                         && py_eqb (PStr (sg_name g)) group_name)
                   (security_groups w)
       with
       | Some g => (Ok g, w)
       | None => (Raise NotFound, w)
       end.

(** Modelled from the spec: [security_group.rules], the ordered
    collection of rules of a group: the rows of the rule table whose
    parent is the group, in the order of the table. *)
Definition rules_of (group : SecurityGroup) (w : World) : list SecurityGroupRule :=
  List.filter (λ r, py_eqb (rule_parent_group_id r) (PInt (sg_id group)))
              (security_group_rules w).

(** A column of a value set: the value under the key, [None] when the
    value set has no such key. *)
Definition column (values : gmap string pyval) (key : string) : pyval :=
  default PNone (values !! key).

(** Modelled from the spec: [db.security_group_rule_create] of nova/db,
    the create of the persistence collaborator: a new row, under a
    fresh id, with the columns of the value set. *)
Definition security_group_rule_create
    (context : RequestContext) (values : gmap string pyval) : M SecurityGroupRule :=
  λ w, let rule :=
         {| rule_id := next_rule_id w;
            rule_parent_group_id := column values "parent_group_id";
            rule_protocol := column values "protocol";
            rule_from_port := column values "from_port";
            rule_to_port := column values "to_port";
            rule_cidr := column values "cidr";
            rule_group_id := column values "group_id" |} in
       (Ok rule, with_rules (security_group_rules w ++ [rule]) (next_rule_id w + 1) w).

(** Modelled from the spec: [db.security_group_rule_destroy] of
    nova/db, the delete of the persistence collaborator keyed by the
    internal id of the rule. *)
Definition security_group_rule_destroy (context : RequestContext) (id : Z) : M unit :=
  λ w, (Ok tt,
        with_rules (List.filter (λ r, negb (rule_id r =? id)) (security_group_rules w))
                   (next_rule_id w) w).

(** Modelled from the spec: [db.service_get_all_by_host] of nova/db,
    the listing of the service entries of a host. *)
Definition service_get_all_by_host (context : RequestContext) (host : pyval)
  : M (list Service) :=
  λ w, (Ok (List.filter (λ s, py_eqb (svc_host s) host) (services w)), w).

End db.

(** [rule.<name>]: the attributes of a rule row. *)
Definition rule_getattr (rule : SecurityGroupRule) (name : string) : option pyval :=
  if String.eqb name "id" then Some (PInt (rule_id rule))
  else if String.eqb name "parent_group_id" then Some (rule_parent_group_id rule)
  else if String.eqb name "protocol" then Some (rule_protocol rule)
  else if String.eqb name "from_port" then Some (rule_from_port rule)
  else if String.eqb name "to_port" then Some (rule_to_port rule)
  else if String.eqb name "cidr" then Some (rule_cidr rule)
  else if String.eqb name "group_id" then Some (rule_group_id rule)
  else None.

(** [rule[name]] *)
Definition rule_getitem (rule : SecurityGroupRule) (name : string) : result pyval :=
  match rule_getattr rule name with
  | Some v => Ok v
  | None => Raise AttributeError
  end.

(** ** Instances and volumes *)

Record FixedIp : Type := {
  fixed_address : string;
  floating_ips : list string     (* the addresses of the floating ips *)
}.

Record Instance : Type := {
  inst_id : N;
  inst_image_id : string;
  inst_state : Z;
  inst_state_description : string;
  inst_fixed_ip : option FixedIp;
  inst_key_name : pyval;
  inst_project_id : string;
  inst_host : pyval;
  inst_instance_type : pyval;
  inst_created_at : pyval;
  inst_launch_index : pyval;
  inst_display_name : pyval;
  inst_display_description : pyval;
  inst_reservation_id : string
}.

Record VolumeInstance : Type := {
  vi_id : N;
  vi_host : pyval
}.

Record Volume : Type := {
  vol_id : pyval;
  vol_ec2_id : pyval;
  vol_status : pyval;
  vol_size : pyval;
  vol_availability_zone : pyval;
  vol_created_at : pyval;
  vol_user_id : pyval;
  vol_host : pyval;
  vol_mountpoint : pyval;
  vol_attach_status : pyval;
  vol_attach_time : pyval;
  vol_display_name : pyval;
  vol_display_description : pyval;
  vol_instance : option VolumeInstance
}.

(** ** The response shapes *)

Record InstanceItem : Type := {
  instanceId : string;
  imageId : string;
  instanceState : Z * string;       (* code, name *)
  privateDnsName : pyval;
  publicDnsName : pyval;
  dnsName : pyval;
  keyName : pyval;
  productCodesSet : option (list (gmap string pyval));
  instanceType : pyval;
  launchTime : pyval;
  amiLaunchIndex : pyval;
  displayName : pyval;
  displayDescription : pyval;
  placement : string                (* availabilityZone *)
}.

Record ReservationItem : Type := {
  reservationId : string;
  ownerId : string;
  groupSet : option (list (gmap string pyval));
  instancesSet : list InstanceItem
}.

Record VolumeItem : Type := {
  volumeId : pyval;
  status : pyval;
  size : pyval;
  availabilityZone : pyval;
  createTime : pyval;
  attachmentSet : list (gmap string pyval);
  display_name : pyval;
  display_description : pyval
}.

Record KeyPairItem : Type := {
  keyName_ : string;
  keyFingerprint : string;
  keyMaterial : string
}.

(* ===================================================================== *)
(** * The other collaborators                                             *)
(* ===================================================================== *)

(** The keyword arguments [run_instances] hands to [compute_api.create]. *)
Record CreateArgs : Type := {
  arg_instance_type : pyval;
  arg_image_id : pyval;
  arg_min_count : Z;
  arg_max_count : Z;
  arg_kernel_id : pyval;
  arg_ramdisk_id : pyval;
  arg_display_name : pyval;
  arg_display_description : pyval;
  arg_key_name : pyval;
  arg_user_data : pyval;
  arg_security_group : pyval;
  arg_availability_zone : pyval;
  arg_generate_hostname : Z → option string
}.

(** What the controller consumes and this file does not define: the
    compute manager, the crypto and IPy modules, the table of instance
    types and the flag that names the VPN image. *)
Class Collaborators : Type := {
  (** [IPy.IP(x)] accepts [x] *)
  IPy_IP : pyval → bool;
  (** the key material [crypto.generate_key_pair()] returns the n-th time
      it is called: private key, public key, fingerprint *)
  crypto_material : nat → string * string * string;
  instance_types_get_by_type : pyval → result pyval;
  FLAGS_vpn_image_id : string;
  compute_ensure_default_security_group : RequestContext → M unit;
  compute_trigger_security_group_rules_refresh : RequestContext → Z → M unit;
  compute_create : RequestContext → CreateArgs → M (list Instance);
  compute_get : RequestContext → Z → M Instance;
  compute_get_all : RequestContext → gmap string pyval → M (list Instance)
}.

(** [crypto.generate_key_pair()] *)
Definition crypto_generate_key_pair `{Collaborators} : M (string * string * string) :=
  λ w, (Ok (crypto_material (keys_generated w)),
        {| key_pairs := key_pairs w;
           security_groups := security_groups w;
           security_group_rules := security_group_rules w;
           next_rule_id := next_rule_id w;
           services := services w;
           keys_generated := S (keys_generated w);
           audit_log := audit_log w |}).

(* ===================================================================== *)
(** * The cloud controller                                                *)
(* ===================================================================== *)

Section CloudController.

Context `{Collaborators}.

(** ** Key pairs *)

Record GeneratedKey : Type := {
  private_key : string;
  fingerprint : string
}.

Definition _gen_key (context : RequestContext) (user_id key_name : string)
  : M GeneratedKey :=
  try_except
    (db.key_pair_get context user_id key_name;;
     raise (Duplicate ("The key_pair " +:+ key_name +:+ " already exists")))
    (λ e, match e with
          | NotFound => Some (ret tt)
          | _ => None
          end);;
  '(private_key, public_key, fingerprint) <- crypto_generate_key_pair;;
  let key := {| kp_user_id := user_id;
                kp_name := key_name;
                kp_public_key := public_key;
                kp_fingerprint := fingerprint |} in
  db.key_pair_create context key;;
  ret {| private_key := private_key; fingerprint := fingerprint |}.

Definition create_key_pair (context : RequestContext) (key_name : string)
  : M KeyPairItem :=
  LOG_audit ("Create key pair " +:+ key_name);;
  data <- _gen_key context (ctx_user_id context) key_name;;
  ret {| keyName_ := key_name;
         keyFingerprint := fingerprint data;
         keyMaterial := private_key data |}.

Definition delete_key_pair (context : RequestContext) (key_name : string) : M bool :=
  LOG_audit ("Delete key pair " +:+ key_name);;
  try_except
    (db.key_pair_destroy context (ctx_user_id context) key_name)
    (λ e, match e with
          | NotFound => Some (ret tt)   (* aws returns true even if the key doesn't exist *)
          | _ => None
          end);;
  ret true.

(** ** Security-group rules *)

(** The keyword arguments of a rule; an argument that was not given is
    [None]. *)
Record RuleArgs : Type := {
  to_port : pyval;
  from_port : pyval;
  ip_protocol : pyval;
  cidr_ip : pyval;
  user_id : pyval;
  source_security_group_name : pyval;
  source_security_group_owner_id : pyval
}.

Definition _get_source_project_id
    (context : RequestContext) (source_security_group_owner_id : pyval)
  : result pyval :=
  if truthy source_security_group_owner_id then
    match source_security_group_owner_id with
    | PStr owner =>
        let source_parts := split owner ":" in
        if (length source_parts =? 2)%nat
        then Ok (PStr (nth 1 source_parts ""))
        else Ok (PStr (nth 0 source_parts ""))
    | _ => Raise AttributeError     (* no [split] on what is not a string *)
    end
  else Ok (PStr (ctx_project_id context)).

Definition valid_protocols : list string := ["TCP"; "UDP"; "ICMP"].

Definition _revoke_rule_args_to_dict (context : RequestContext) (args : RuleArgs)
  : M (option (gmap string pyval)) :=
  values <-
    (if truthy (source_security_group_name args) then
       source_project_id <-
         lift (_get_source_project_id context (source_security_group_owner_id args));;
       source_security_group <-
         db.security_group_get_by_name (elevated context) source_project_id
                                       (source_security_group_name args);;
       ret ({[ "group_id" := PInt (sg_id source_security_group) ]} : gmap string pyval)
     else if truthy (cidr_ip args) then
       (* If this fails, it throws an exception. This is what we want. *)
       (if IPy_IP (cidr_ip args) then ret tt else raise ValueError);;
       ret {[ "cidr" := cidr_ip args ]}
     else
       ret {[ "cidr" := PStr "0.0.0.0/0" ]});;
  if truthy (ip_protocol args) && truthy (from_port args) && truthy (to_port args) then
    from_port <- lift (py_int (from_port args));;
    to_port <- lift (py_int (to_port args));;
    let ip_protocol := py_str (ip_protocol args) in
    if negb (existsb (String.eqb (upper ip_protocol)) valid_protocols) then
      raise (InvalidInputException (ip_protocol +:+ " is not a valid ipProtocol"))
    else if (Z.min from_port to_port <? -1) || (Z.max from_port to_port >? 65535) then
      raise (InvalidInputException "Invalid port range")
    else
      ret (Some (<["to_port" := PInt to_port]>
                (<["from_port" := PInt from_port]>
                (<["protocol" := PStr ip_protocol]> values))))
  else
    (* If cidr based filtering, protocol and ports are mandatory *)
    if bool_decide (is_Some (values !! "cidr")) then ret None
    else ret (Some values).

(** The inner loop of [_security_group_rule_exists] over the keys of a
    CIDR rule, leaving at the first key that differs. *)
Fixpoint is_duplicate
    (keys : list string) (rule : SecurityGroupRule) (values : gmap string pyval)
  : result bool :=
  match keys with
  | [] => Ok true
  | key :: keys' =>
      rbind (rule_getitem rule key) (λ mine,
      match values !! key with
      | None => Raise (KeyError key)
      | Some theirs =>
          if negb (py_eqb mine theirs) then Ok false
          else is_duplicate keys' rule values
      end)
  end.

Fixpoint rule_exists_in (rules : list SecurityGroupRule) (values : gmap string pyval)
  : result bool :=
  match rules with
  | [] => Ok false
  | rule :: rules' =>
      match values !! "group_id" with
      | Some group_id =>
          rbind (rule_getitem rule "group_id") (λ mine,
          if py_eqb mine group_id then Ok true
          else rule_exists_in rules' values)
      | None =>
          rbind (is_duplicate ["cidr"; "from_port"; "to_port"; "protocol"] rule values)
                (λ dup, if dup then Ok true else rule_exists_in rules' values)
      end
  end.

Definition _security_group_rule_exists
    (security_group : SecurityGroup) (values : gmap string pyval) : M bool :=
  w <- get_world;;
  lift (rule_exists_in (db.rules_of security_group w) values).

(** [getattr(rule, k, False) != v] for no [(k, v)] of the criteria *)
Definition rule_matches (criteria : gmap string pyval) (rule : SecurityGroupRule) : bool :=
  forallb (λ '(k, v), py_eqb (default (PBool false) (rule_getattr rule k)) v)
          (map_to_list criteria).

Fixpoint revoke_first
    (context : RequestContext) (security_group : SecurityGroup)
    (criteria : gmap string pyval) (rules : list SecurityGroupRule) : M bool :=
  match rules with
  | [] => raise (ApiError "No rule for the specified parameters.")
  | rule :: rules' =>
      if rule_matches criteria rule then
        db.security_group_rule_destroy context (rule_id rule);;
        compute_trigger_security_group_rules_refresh context (sg_id security_group);;
        ret true
      else revoke_first context security_group criteria rules'
  end.

Definition revoke_security_group_ingress
    (context : RequestContext) (group_name : string) (kwargs : RuleArgs) : M bool :=
  LOG_audit ("Revoke security group ingress " +:+ group_name);;
  compute_ensure_default_security_group context;;
  security_group <-
    db.security_group_get_by_name context (PStr (ctx_project_id context))
                                  (PStr group_name);;
  criteria <- _revoke_rule_args_to_dict context kwargs;;
  match criteria with
  | None => raise (ApiError "Not enough parameters to build a valid rule.")
  | Some criteria =>
      w <- get_world;;
      revoke_first context security_group criteria (db.rules_of security_group w)
  end.

Definition authorize_security_group_ingress
    (context : RequestContext) (group_name : string) (kwargs : RuleArgs) : M bool :=
  LOG_audit ("Authorize security group ingress " +:+ group_name);;
  compute_ensure_default_security_group context;;
  security_group <-
    db.security_group_get_by_name context (PStr (ctx_project_id context))
                                  (PStr group_name);;
  values <- _revoke_rule_args_to_dict context kwargs;;
  match values with
  | None => raise (ApiError "Not enough parameters to build a valid rule.")
  | Some values =>
      let values := <["parent_group_id" := PInt (sg_id security_group)]> values in
      exists_ <- _security_group_rule_exists security_group values;;
      if exists_ then
        raise (ApiError ("This rule already exists in group " +:+ group_name))
      else
        db.security_group_rule_create context values;;
        compute_trigger_security_group_rules_refresh context (sg_id security_group);;
        ret true
  end.

(** ** Volumes *)

Definition _format_volume (context : RequestContext) (volume : Volume) : VolumeItem :=
  let '(instance_ec2_id, instance_data) :=
    match vol_instance volume with
    | Some instance =>
        let instance_ec2_id := ec2_id_of_key (vi_id instance) in
        (PStr instance_ec2_id,
         PStr (instance_ec2_id +:+ "[" +:+ py_str (vi_host instance) +:+ "]"))
    | None => (PNone, PNone)
    end in
  {| volumeId := vol_id volume;
     status :=
       if ctx_is_admin context then
         PStr (py_str (vol_status volume) +:+ " ("
               +:+ py_str (vol_user_id volume) +:+ ", "
               +:+ py_str (vol_host volume) +:+ ", "
               +:+ py_str instance_data +:+ ", "
               +:+ py_str (vol_mountpoint volume) +:+ ")")
       else vol_status volume;
     size := vol_size volume;
     availabilityZone := vol_availability_zone volume;
     createTime := vol_created_at volume;
     attachmentSet :=
       if py_eqb (vol_attach_status volume) (PStr "attached") then
         [ list_to_map
             [ ("attachTime", vol_attach_time volume);
               ("deleteOnTermination", PBool false);
               ("device", vol_mountpoint volume);
               ("instanceId", instance_ec2_id);
               ("status", PStr "attached");
               ("volume_id", vol_ec2_id volume) ] ]
       else [ ∅ ];
     display_name := vol_display_name volume;
     display_description := vol_display_description volume |}.

(** ** Instances *)

Definition _get_availability_zone_by_host (context : RequestContext) (host : pyval)
  : M string :=
  services <- db.service_get_all_by_host context host;;
  match services with
  | service :: _ => ret (svc_availability_zone service)
  | [] => ret "unknown zone"
  end.

Definition _convert_to_set (lst : option (list pyval)) (label : string)
  : option (list (gmap string pyval)) :=
  match lst with
  | None | Some [] => None
  | Some lst => Some (map (λ x, {[ label := x ]}) lst)
  end.

(** [[f(x) for x in xs]] for an [f] that may raise or write *)
Fixpoint for_each {A B} (f : A → M B) (xs : list A) : M (list B) :=
  match xs with
  | [] => ret []
  | x :: xs' => y <- f x;; ys <- for_each f xs';; ret (y :: ys)
  end.

Definition format_instance (context : RequestContext) (instance : Instance) (zone : string)
  : InstanceItem :=
  let fixed_addr :=
    match inst_fixed_ip instance with
    | Some fixed => PStr (fixed_address fixed)
    | None => PNone
    end in
  let floating_addr :=
    match inst_fixed_ip instance with
    | Some fixed =>
        match floating_ips fixed with
        | address :: _ => PStr address
        | [] => PNone
        end
    | None => PNone
    end in
  {| instanceId := ec2_id_of_key (inst_id instance);
     imageId := inst_image_id instance;
     instanceState := (inst_state instance, inst_state_description instance);
     privateDnsName := fixed_addr;
     publicDnsName := floating_addr;
     dnsName := if truthy floating_addr then floating_addr else fixed_addr;
     keyName :=
       if ctx_user_is_admin context then
         PStr (py_str (inst_key_name instance) +:+ " (" +:+ inst_project_id instance
               +:+ ", " +:+ py_str (inst_host instance) +:+ ")")
       else inst_key_name instance;
     productCodesSet := _convert_to_set (Some []) "product_codes";
     instanceType := inst_instance_type instance;
     launchTime := inst_created_at instance;
     amiLaunchIndex := inst_launch_index instance;
     displayName := inst_display_name instance;
     displayDescription := inst_display_description instance;
     placement := zone |}.

(** The [for instance in instances] loop of [_format_instances] over
    the dictionary [reservations]. *)
Fixpoint group_by_reservation
    (context : RequestContext) (instances : list Instance)
    (reservations : gmap string ReservationItem) : M (gmap string ReservationItem) :=
  match instances with
  | [] => ret reservations
  | instance :: instances' =>
      if negb (ctx_user_is_admin context)
         && String.eqb (inst_image_id instance) FLAGS_vpn_image_id
      then group_by_reservation context instances' reservations
      else
        zone <- _get_availability_zone_by_host context (inst_host instance);;
        let i := format_instance context instance zone in
        let r :=
          match reservations !! inst_reservation_id instance with
          | Some r => r
          | None =>
              {| reservationId := inst_reservation_id instance;
                 ownerId := inst_project_id instance;
                 groupSet := _convert_to_set (Some []) "groups";
                 instancesSet := [] |}
          end in
        let r' := {| reservationId := reservationId r;
                     ownerId := ownerId r;
                     groupSet := groupSet r;
                     instancesSet := instancesSet r ++ [i] |} in
        group_by_reservation context instances'
          (<[inst_reservation_id instance := r']> reservations)
  end.

Definition _format_instances
    (context : RequestContext) (instance_id : option (list string))
    (kwargs : gmap string pyval) : M (list ReservationItem) :=
  instances <-
    (match instance_id with
     | Some ((_ :: _) as instance_id) =>
         instance_id <- for_each (λ x, lift (ec2_id_to_id x)) instance_id;;
         for_each (compute_get context) instance_id
     | _ => compute_get_all context kwargs
     end);;
  reservations <- group_by_reservation context instances ∅;;
  ret (map snd (map_to_list reservations)).

Definition _format_run_instances (context : RequestContext) (reservation_id : string)
  : M ReservationItem :=
  i <- _format_instances context None {[ "reservation_id" := PStr reservation_id ]};;
  match i with
  | [r] => ret r
  | _ => raise AssertionError     (* assert len(i) == 1 *)
  end.

(** The keyword arguments of [run_instances]; the one argument that is
    itself a dictionary, [placement], is kept apart. *)
Record RunKwargs : Type := {
  kw : gmap string pyval;
  kw_placement : option (gmap string pyval)
}.

(** [kwargs.get(key, default)] and [kwargs.get(key)] *)
Definition kwargs_get (kwargs : gmap string pyval) (key : string) (dflt : pyval) : pyval :=
  default dflt (kwargs !! key).

(** What [run_instances] passes to [compute_api.create], its arguments
    evaluated in the order of the source. *)
Definition create_args (kwargs : RunKwargs) : result CreateArgs :=
  rbind (py_int (kwargs_get (kw kwargs) "max_count" (PInt 1))) (λ max_count,
  rbind (instance_types_get_by_type (kwargs_get (kw kwargs) "instance_type" PNone))
        (λ instance_type,
  match kw kwargs !! "image_id" with
  | None => Raise (KeyError "image_id")
  | Some image_id =>
  rbind (py_int (kwargs_get (kw kwargs) "min_count" (PInt max_count))) (λ min_count,
  Ok {| arg_instance_type := instance_type;
        arg_image_id := image_id;
        arg_min_count := min_count;
        arg_max_count := max_count;
        arg_kernel_id := kwargs_get (kw kwargs) "kernel_id" PNone;
        arg_ramdisk_id := kwargs_get (kw kwargs) "ramdisk_id" PNone;
        arg_display_name := kwargs_get (kw kwargs) "display_name" PNone;
        arg_display_description := kwargs_get (kw kwargs) "display_description" PNone;
        arg_key_name := kwargs_get (kw kwargs) "key_name" PNone;
        arg_user_data := kwargs_get (kw kwargs) "user_data" PNone;
        arg_security_group := kwargs_get (kw kwargs) "security_group" PNone;
        arg_availability_zone :=
          kwargs_get (default ∅ (kw_placement kwargs)) "AvailabilityZone" PNone;
        arg_generate_hostname := id_to_ec2_id |})
  end)).

Definition run_instances (context : RequestContext) (kwargs : RunKwargs)
  : M ReservationItem :=
  args <- lift (create_args kwargs);;
  instances <- compute_create context args;;
  match instances with
  | first :: _ => _format_run_instances context (inst_reservation_id first)
  | [] => raise IndexError
  end.

End CloudController.

(* ===================================================================== *)
(** * The vocabulary of the properties                                    *)
(* ===================================================================== *)

(** The value of a list of base-36 digits, least significant first. *)
Definition value_of (ds : list Z) : Z := fold_right (λ d acc, d + 36 * acc) 0 ds.

Definition is_digit36 (d : Z) : Prop := 0 ≤ d < 36.

(** A character the loop can emit: it reads back as its digit, and is
    neither white space nor a sign. *)
Definition reads_back (r : Z) : bool :=
  let c := digit_char r in
  match digit_value c with
  | Some d => (d =? r) && negb (is_space c)
              && negb (Ascii.eqb c "+") && negb (Ascii.eqb c "-")
  | None => false
  end.

(** From the words of the spec: the strings that match
    [^i-[0-9a-z]+$]. *)
Definition is_lower_alnum (c : ascii) : bool :=
  let n := N_of_ascii c in
  (((48 <=? n) && (n <=? 57)) || ((97 <=? n) && (n <=? 122)))%N.

Definition matches_ec2_id (s : string) : bool :=
  match s with
  | String "i" (String "-" rest) =>
      negb (String.eqb rest "") && forallb is_lower_alnum (list_ascii_of_string rest)
  | _ => false
  end.

(** The characters a literal of [int] may hold at all: letters and
    digits, the two signs and white space. *)
Definition literal_char (c : ascii) : bool :=
  match digit_value c with
  | Some _ => true
  | None => is_space c || Ascii.eqb c "+" || Ascii.eqb c "-"
  end.

(** Two values match when [==] holds of them. *)
Definition same (a b : pyval) : Prop := py_eqb a b = true.

(** From the words of the spec: canonical equality for the detection of
    duplicates.  A value set that refers to a source group equals a rule
    when their [group_id] match, ports and protocol ignored; a value set
    by CIDR equals a rule when cidr, from_port, to_port and protocol all
    match. *)
Definition canonically_equal (values : gmap string pyval) (rule : SecurityGroupRule) : Prop :=
  match values !! "group_id" with
  | Some group_id => same (rule_group_id rule) group_id
  | None =>
      same (rule_cidr rule) (db.column values "cidr")
      ∧ same (rule_from_port rule) (db.column values "from_port")
      ∧ same (rule_to_port rule) (db.column values "to_port")
      ∧ same (rule_protocol rule) (db.column values "protocol")
  end.

(** From the words of the spec: a rule matches the criteria when it
    matches on exactly the fields the criteria hold, the others ignored. *)
Definition matches_criteria (criteria : gmap string pyval) (rule : SecurityGroupRule) : Prop :=
  ∀ k v, criteria !! k = Some v → same (default (PBool false) (rule_getattr rule k)) v.

(** What canonicalisation returns: a reference to a group, or a CIDR with
    protocol and both ports. *)
Definition canonical (values : gmap string pyval) : Prop :=
  is_Some (values !! "group_id")
  ∨ (is_Some (values !! "cidr") ∧ is_Some (values !! "from_port")
     ∧ is_Some (values !! "to_port") ∧ is_Some (values !! "protocol")).

(** The rule table without the row of the given id. *)
Definition without_rule (id : Z) (w : World) : World :=
  db.with_rules (List.filter (λ r, negb (rule_id r =? id)) (security_group_rules w))
                (next_rule_id w) w.

(* ===================================================================== *)
(** * A small deployment, to run the controller on                        *)
(* ===================================================================== *)

Module Sample.

Definition context : RequestContext :=
  {| ctx_user_id := "alice";
     ctx_project_id := "proj";
     ctx_is_admin := false;
     ctx_user_is_admin := false;
     ctx_request_id := "req-1" |}.

Definition instance (id : N) (reservation : string) : Instance :=
  {| inst_id := id;
     inst_image_id := "ami-1";
     inst_state := 0;
     inst_state_description := "scheduling";
     inst_fixed_ip := None;
     inst_key_name := PNone;
     inst_project_id := "proj";
     inst_host := PStr "node1";
     inst_instance_type := PStr "m1.small";
     inst_created_at := PStr "2011-01-01";
     inst_launch_index := PInt 0;
     inst_display_name := PNone;
     inst_display_description := PNone;
     inst_reservation_id := reservation |}.

(** A compute manager that launches one instance and lists
    [listing] whatever the filter. *)
Definition collaborators_listing (listing : list Instance) : Collaborators :=
  {| IPy_IP := λ v, match v with PStr _ => true | _ => false end;
     crypto_material := λ n, ("private", "public", "fingerprint");
     instance_types_get_by_type := λ v, Ok v;
     FLAGS_vpn_image_id := "ami-cloudpipe";
     compute_ensure_default_security_group := λ _, ret tt;
     compute_trigger_security_group_rules_refresh :=
       λ _ id, LOG_audit "refresh_security_group";
     compute_create := λ _ _, ret [instance 1 "r-1"];
     compute_get := λ _ _, raise NotFound;
     compute_get_all := λ _ _, ret listing |}.

Definition collaborators : Collaborators :=
  collaborators_listing [instance 1 "r-1"].

(** One whose listing ignores the reservation asked for. *)
Definition collaborators_unfiltered : Collaborators :=
  collaborators_listing [instance 1 "r-1"; instance 2 "r-2"].

Definition web : SecurityGroup :=
  {| sg_id := 1; sg_name := "web"; sg_description := "web servers";
     sg_user_id := "alice"; sg_project_id := "proj" |}.

Definition db_group : SecurityGroup :=
  {| sg_id := 2; sg_name := "db"; sg_description := "databases";
     sg_user_id := "alice"; sg_project_id := "proj" |}.

Definition cache : SecurityGroup :=
  {| sg_id := 3; sg_name := "cache"; sg_description := "caches";
     sg_user_id := "alice"; sg_project_id := "proj" |}.

Definition cidr_rule (id : Z) (parent : Z) (protocol : string) (from to : Z) (cidr : string)
  : SecurityGroupRule :=
  {| rule_id := id;
     rule_parent_group_id := PInt parent;
     rule_protocol := PStr protocol;
     rule_from_port := PInt from;
     rule_to_port := PInt to;
     rule_cidr := PStr cidr;
     rule_group_id := PNone |}.

Definition group_rule (id : Z) (parent : Z) (protocol : string) (from to : Z) (source : Z)
  : SecurityGroupRule :=
  {| rule_id := id;
     rule_parent_group_id := PInt parent;
     rule_protocol := PStr protocol;
     rule_from_port := PInt from;
     rule_to_port := PInt to;
     rule_cidr := PNone;
     rule_group_id := PInt source |}.

(** Group [web] holds rules 1, 2, 4 and 5; the last two both let the
    group [db] in, on different ports. *)
Definition world : World :=
  {| key_pairs := {[ ("alice", "laptop") :=
                       {| kp_user_id := "alice"; kp_name := "laptop";
                          kp_public_key := "public"; kp_fingerprint := "fingerprint" |} ]};
     security_groups := [web; db_group; cache];
     security_group_rules :=
       [ cidr_rule 1 1 "tcp" 22 22 "10.0.0.0/8";
         cidr_rule 2 1 "tcp" 80 80 "0.0.0.0/0";
         cidr_rule 3 2 "tcp" 80 80 "0.0.0.0/0";
         group_rule 4 1 "tcp" 5432 5432 2;
         group_rule 5 1 "udp" 53 53 2 ];
     next_rule_id := 6;
     services := [];
     keys_generated := 0;
     audit_log := [] |}.

(** The world once a request has been written to the audit log. *)
Definition audited (msg : string) : World := snd (LOG_audit msg world).

Definition no_args : RuleArgs :=
  {| to_port := PNone; from_port := PNone; ip_protocol := PNone; cidr_ip := PNone;
     user_id := PNone; source_security_group_name := PNone;
     source_security_group_owner_id := PNone |}.

(** [ip_protocol=..., from_port=..., to_port=...], by the default CIDR *)
Definition ports (protocol from to : pyval) : RuleArgs :=
  {| to_port := to; from_port := from; ip_protocol := protocol; cidr_ip := PNone;
     user_id := PNone; source_security_group_name := PNone;
     source_security_group_owner_id := PNone |}.

(** [source_security_group_name=...] *)
Definition from_group (name : string) : RuleArgs :=
  {| to_port := PNone; from_port := PNone; ip_protocol := PNone; cidr_ip := PNone;
     user_id := PNone; source_security_group_name := PStr name;
     source_security_group_owner_id := PNone |}.

Definition volume (attach_status : string) : Volume :=
  {| vol_id := PInt 7;
     vol_ec2_id := PStr "vol-7";
     vol_status := PStr "available";
     vol_size := PInt 10;
     vol_availability_zone := PStr "nova";
     vol_created_at := PStr "2011-01-01";
     vol_user_id := PStr "alice";
     vol_host := PStr "node1";
     vol_mountpoint := PStr "/dev/vdb";
     vol_attach_status := PStr attach_status;
     vol_attach_time := PStr "2011-01-02";
     vol_display_name := PNone;
     vol_display_description := PNone;
     vol_instance := Some {| vi_id := 36; vi_host := PStr "node1" |} |}.

End Sample.

(* ===================================================================== *)
(** * More of the controller                                              *)
(* ===================================================================== *)

(** [x in xs] *)
Definition py_in (x : pyval) (xs : list pyval) : bool := existsb (py_eqb x) xs.

(** [s.endswith(suffix)] *)
Definition endswith (s suffix : string) : bool :=
  let n := String.length s in
  let k := String.length suffix in
  (k <=? n)%nat && String.eqb (String.substring (n - k) k s) suffix.

(** [s.partition(sep)] for a one-character separator: what comes before
    the first separator, the separator if there is one, and what comes
    after it. *)
Fixpoint partition_on (sep : ascii) (before : string) (s : string)
  : string * string * string :=
  match s with
  | EmptyString => (before, EmptyString, EmptyString)
  | String c s' =>
      if Ascii.eqb c sep then (before, String sep EmptyString, s')
      else partition_on sep (before +:+ String c EmptyString) s'
  end.

Definition partition (s : string) (sep : ascii) : string * string * string :=
  partition_on sep EmptyString s.

Module db_more.

(** Modelled from the spec: [db.key_pair_get_all_by_user] of nova/db,
    the listing of the persistence collaborator: the key pairs stored
    whose owner is the user. *)
Definition key_pair_get_all_by_user (context : RequestContext) (user_id : string)
  : M (list KeyPair) :=
  λ w, (Ok (List.filter (λ kp, String.eqb (kp_user_id kp) user_id)
                        (map snd (map_to_list (key_pairs w)))), w).

(** Modelled from the spec: [db.security_group_get] of nova/db, the read
    of the persistence collaborator keyed by the internal id, which
    raises the NotFound signal when there is no such group. *)
Definition security_group_get (context : RequestContext) (id : pyval) : M SecurityGroup :=
  λ w, match List.find (λ g, py_eqb (PInt (sg_id g)) id) (security_groups w) with
       | Some g => (Ok g, w)
       | None => (Raise NotFound, w)
       end.

End db_more.

Record Image : Type := {
  img_imageId : pyval;
  img_isPublic : pyval
}.

(** A floating address, the fixed address it is associated with if any,
    and the [ec2_id] of the instance that one is bound to if any. *)
Record FloatingIp : Type := {
  fl_address : pyval;
  fl_project_id : pyval;
  fl_fixed_ip : option (option N)
}.

(** More of what the controller consumes and this file does not define:
    the rest of the compute manager, the volume manager, the image
    service, the listings of services and of floating addresses, and the
    flag that names the suffix of VPN keys. *)
Class Services : Type := {
  FLAGS_vpn_key_suffix : string;
  compute_delete : RequestContext → Z → M unit;
  compute_update : RequestContext → Z → gmap string pyval → M unit;
  volume_get_all : RequestContext → M (list Volume);
  volume_update : RequestContext → pyval → gmap string pyval → M unit;
  image_index : RequestContext → M (list Image);
  image_show : RequestContext → pyval → M Image;
  image_modify : RequestContext → pyval → pyval → M pyval;
  (** [db.service_get_all(context, disabled)] *)
  db_service_get_all : RequestContext → bool → M (list Service);
  db_floating_ip_get_all : RequestContext → M (list FloatingIp);
  db_floating_ip_get_all_by_project : RequestContext → string → M (list FloatingIp)
}.

Record ZoneItem : Type := {
  zoneName : string;
  zoneState : string
}.

Record KeyPairEntry : Type := {
  entry_keyName : string;
  entry_keyFingerprint : string
}.

Record GroupRef : Type := {
  ref_groupName : string;
  ref_userId : string
}.

Record Permission : Type := {
  ipProtocol : pyval;
  fromPort : pyval;
  toPort : pyval;
  groups : list GroupRef;
  ipRanges : list pyval        (* the cidrIp of each range *)
}.

Record SecurityGroupItem : Type := {
  groupDescription : string;
  groupName : string;
  group_ownerId : string;
  ipPermissions : list Permission
}.

Record AddressItem : Type := {
  public_ip : pyval;
  instance_id : pyval
}.

Record ImageAttribute : Type := {
  attr_image_id : pyval;
  launchPermission : list (gmap string pyval)
}.

Section MoreOfTheController.

Context `{Collaborators} `{Services}.

(** ** Availability zones *)

(** [for zone in zones: if not zone in seen: seen.append(zone)] *)
Fixpoint append_new (zones : list string) (seen : list string) : list string :=
  match zones with
  | [] => seen
  | zone :: zones' =>
      if existsb (String.eqb zone) seen then append_new zones' seen
      else append_new zones' (seen ++ [zone])
  end.

Definition _describe_availability_zones (context : RequestContext) : M (list ZoneItem) :=
  enabled_services <- db_service_get_all context false;;
  disabled_services <- db_service_get_all context true;;
  let available_zones := append_new (map svc_availability_zone enabled_services) [] in
  let not_available_zones :=
    append_new
      (map svc_availability_zone
           (List.filter (λ service,
                           negb (existsb (String.eqb (svc_availability_zone service))
                                         available_zones))
                        disabled_services))
      [] in
  ret (map (λ zone, {| zoneName := zone; zoneState := "available" |}) available_zones
       ++ map (λ zone, {| zoneName := zone; zoneState := "not available" |})
              not_available_zones)%list.

(** ** Key pairs *)

Definition describe_key_pairs (context : RequestContext) (key_name : option (list string))
  : M (list KeyPairEntry) :=
  key_pairs <- db_more.key_pair_get_all_by_user context (ctx_user_id context);;
  let key_pairs :=
    match key_name with
    | Some key_name =>
        List.filter (λ x, existsb (String.eqb (kp_name x)) key_name) key_pairs
    | None => key_pairs
    end in
  ret (map (λ key_pair, {| entry_keyName := kp_name key_pair;
                           entry_keyFingerprint := kp_fingerprint key_pair |})
           (* filter out the vpn keys *)
           (List.filter (λ key_pair,
                           ctx_user_is_admin context
                           || negb (endswith (kp_name key_pair) FLAGS_vpn_key_suffix))
                        key_pairs)).

(** ** Security groups *)

Fixpoint format_rules (context : RequestContext) (rules : list SecurityGroupRule)
  : M (list Permission) :=
  match rules with
  | [] => ret []
  | rule :: rules' =>
      r <- (if truthy (rule_group_id rule) then
              source_group <- db_more.security_group_get context (rule_group_id rule);;
              ret {| ipProtocol := rule_protocol rule;
                     fromPort := rule_from_port rule;
                     toPort := rule_to_port rule;
                     groups := [ {| ref_groupName := sg_name source_group;
                                    ref_userId := sg_project_id source_group |} ];
                     ipRanges := [] |}
            else
              ret {| ipProtocol := rule_protocol rule;
                     fromPort := rule_from_port rule;
                     toPort := rule_to_port rule;
                     groups := [];
                     ipRanges := [ rule_cidr rule ] |});;
      rest <- format_rules context rules';;
      ret (r :: rest)
  end.

Definition _format_security_group (context : RequestContext) (group : SecurityGroup)
  : M SecurityGroupItem :=
  w <- get_world;;
  permissions <- format_rules context (db.rules_of group w);;
  ret {| groupDescription := sg_description group;
         groupName := sg_name group;
         group_ownerId := sg_project_id group;
         ipPermissions := permissions |}.

(** ** Volumes *)

Definition describe_volumes (context : RequestContext) (volume_id : option (list pyval))
  : M (list VolumeItem) :=
  volumes <- volume_get_all context;;
  ret (map (_format_volume context)
           (List.filter (λ v, match volume_id with
                              | None => true
                              | Some volume_id => py_in (vol_id v) volume_id
                              end)
                        volumes)).

(** The loop over [updatable_fields] of [update_volume] and
    [update_instance]. *)
Definition updatable_fields : list string := ["display_name"; "display_description"].

Fixpoint collect_changes (fields : list string) (kwargs changes : gmap string pyval)
  : gmap string pyval :=
  match fields with
  | [] => changes
  | field :: fields' =>
      match kwargs !! field with
      | Some v => collect_changes fields' kwargs (<[field := v]> changes)
      | None => collect_changes fields' kwargs changes
      end
  end.

(** [if changes:] for a dictionary *)
Definition nonempty (changes : gmap string pyval) : bool :=
  negb (bool_decide (changes = ∅)).

Definition update_volume
    (context : RequestContext) (volume_id : pyval) (kwargs : gmap string pyval) : M bool :=
  let changes := collect_changes updatable_fields kwargs ∅ in
  (if nonempty changes then volume_update context volume_id kwargs else ret tt);;
  ret true.

(** ** Instances *)

Definition describe_instances
    (context : RequestContext) (instance_id : option (list string))
    (kwargs : gmap string pyval) : M (list ReservationItem) :=
  _format_instances context instance_id kwargs.

(** The loop of [terminate_instances]. *)
Fixpoint terminate_each (context : RequestContext) (instance_id : list string) : M unit :=
  match instance_id with
  | [] => ret tt
  | ec2_id :: rest =>
      instance_id <- lift (ec2_id_to_id ec2_id);;
      compute_delete context instance_id;;
      terminate_each context rest
  end.

(** [terminate_instances]; what it writes at the debug level goes to no
    table of the world. *)
Definition terminate_instances (context : RequestContext) (instance_id : list string)
  : M bool :=
  terminate_each context instance_id;;
  ret true.

Definition update_instance
    (context : RequestContext) (ec2_id : string) (kwargs : gmap string pyval) : M bool :=
  let changes := collect_changes updatable_fields kwargs ∅ in
  (if nonempty changes then
     instance_id <- lift (ec2_id_to_id ec2_id);;
     compute_update context instance_id kwargs
   else ret tt);;
  ret true.

(** ** Addresses *)

Definition format_address (context : RequestContext) (floating_ip_ref : FloatingIp)
  : AddressItem :=
  let ec2_id :=
    match fl_fixed_ip floating_ip_ref with
    | Some (Some instance_id) => PStr (ec2_id_of_key instance_id)
    | _ => PNone
    end in
  {| public_ip := fl_address floating_ip_ref;
     instance_id :=
       if ctx_user_is_admin context then
         PStr (py_str ec2_id +:+ " (" +:+ py_str (fl_project_id floating_ip_ref) +:+ ")")
       else ec2_id |}.

Definition format_addresses (context : RequestContext) : M (list AddressItem) :=
  iterator <- (if ctx_user_is_admin context then db_floating_ip_get_all context
               else db_floating_ip_get_all_by_project context (ctx_project_id context));;
  ret (map (format_address context) iterator).

(** ** Images *)

Definition describe_images (context : RequestContext) (image_id : option (list pyval))
  : M (list Image) :=
  images <- image_index context;;
  match image_id with
  | Some ((_ :: _) as image_id) =>
      ret (List.filter (λ x, py_in (img_imageId x) image_id) images)
  | _ => ret images
  end.

Definition describe_image_attribute
    (context : RequestContext) (image_id attribute : pyval) : M ImageAttribute :=
  if negb (py_eqb attribute (PStr "launchPermission")) then
    raise (ApiError ("attribute not supported: " +:+ py_str attribute))
  else
    image <- try_except (image_show context image_id)
               (λ e, match e with
                     | IndexError =>
                         Some (raise (ApiError ("invalid id: " +:+ py_str image_id)))
                     | _ => None
                     end);;
    ret {| attr_image_id := image_id;
           launchPermission :=
             if truthy (img_isPublic image) then [ {[ "group" := PStr "all" ]} ] else [] |}.

Definition double_quote : string := String (ascii_of_N 34) EmptyString.

Definition modify_image_attribute
    (context : RequestContext) (image_id attribute operation_type : pyval)
    (user_group : option (list pyval)) : M pyval :=
  if negb (py_eqb attribute (PStr "launchPermission")) then
    raise (ApiError ("attribute not supported: " +:+ py_str attribute))
  else
    match user_group with
    | None => raise (ApiError "user or group not specified")
    | Some user_group =>
        only_all <-
          (if negb (length user_group =? 1)%nat then
             match user_group with
             | first :: _ => ret (negb (py_eqb first (PStr "all")))
             | [] => raise IndexError
             end
           else ret false);;
        if only_all : bool then
          raise (ApiError ("only group " +:+ double_quote +:+ "all" +:+ double_quote
                           +:+ " is supported"))
        else if negb (py_in operation_type [PStr "add"; PStr "remove"]) then
          raise (ApiError "operation_type must be add or remove")
        else
          LOG_audit ("Updating image " +:+ py_str image_id +:+ " publicity");;
          image_modify context image_id operation_type
    end.

End MoreOfTheController.

(** ** The flag values, [nova/flags.py] *)

Module flags.

(** The attributes [StrWrapper.__getitem__] reads: for each context
    object the value of its attribute [name], if it has one. *)
Fixpoint StrWrapper_getitem {A} (getattr : A → string → option pyval)
    (context_objs : list A) (name : string) : result string :=
  match context_objs with
  | [] => Raise (KeyError name)
  | context :: rest =>
      let val := default (PBool false) (getattr context name) in
      if truthy val then Ok (py_str val)
      else StrWrapper_getitem getattr rest name
  end.

End flags.

(* ===================================================================== *)
(** * More vocabulary                                                     *)
(* ===================================================================== *)

(** A list of digits, least significant first, with no zero at its most
    significant end. *)
Definition trimmed (ds : list Z) : Prop := last ds ≠ Some 0.

(** An external id in the form [id_to_ec2_id] writes: "i-", then digits
    and lower-case letters, the first of which is not "0". *)
Definition canonical_ec2_id (s : string) : Prop :=
  matches_ec2_id s = true ∧ String.get 2 s ≠ Some "0"%char.

(** A string with no colon in it. *)
Definition no_colon (s : string) : Prop := ¬ In ":"%char (list_ascii_of_string s).



(** What a permission entry shows of a rule: its protocol and ports, and
    either the one source group or the one address range. *)
Definition shows (rule : SecurityGroupRule) (p : Permission) : Prop :=
  ipProtocol p = rule_protocol rule
  ∧ fromPort p = rule_from_port rule
  ∧ toPort p = rule_to_port rule
  ∧ if truthy (rule_group_id rule)
    then ipRanges p = [] ∧ length (groups p) = 1%nat
    else groups p = [] ∧ ipRanges p = [rule_cidr rule].

(** The zone [_get_availability_zone_by_host] finds for a host. *)
Definition zone_of_host (w : World) (host : pyval) : string :=
  match List.filter (λ s, py_eqb (svc_host s) host) (services w) with
  | service :: _ => svc_availability_zone service
  | [] => "unknown zone"
  end.

(** The instances a caller is shown: all of them for an administrator,
    for others those whose image is not the VPN image. *)
Definition listed `{Collaborators} (context : RequestContext) (instance : Instance) : bool :=
  ctx_user_is_admin context
  || negb (String.eqb (inst_image_id instance) FLAGS_vpn_image_id).

(** What [_format_instances] shows of an instance. *)
Definition item_of `{Collaborators} (context : RequestContext) (w : World)
    (instance : Instance) : InstanceItem :=
  format_instance context instance (zone_of_host w (inst_host instance)).

(** The reservations built from the instances seen so far hold the
    listed ones among them, each under its reservation id, and nothing
    else. *)
Definition groups_seen `{Collaborators} (context : RequestContext) (w : World)
    (seen : list Instance) (reservations : gmap string ReservationItem) : Prop :=
  (∀ rid r,
     reservations !! rid = Some r →
     reservationId r = rid ∧ instancesSet r ≠ []
     ∧ ∀ item, In item (instancesSet r) →
               ∃ instance, In instance seen ∧ listed context instance = true
                           ∧ inst_reservation_id instance = rid
                           ∧ item = item_of context w instance)
  ∧ (∀ instance,
       In instance seen → listed context instance = true →
       ∃ r, reservations !! inst_reservation_id instance = Some r
            ∧ In (item_of context w instance) (instancesSet r)).

(* ===================================================================== *)
(** * More of the small deployment                                        *)
(* ===================================================================== *)

Module Site.

Definition admin : RequestContext :=
  {| ctx_user_id := "root";
     ctx_project_id := "proj";
     ctx_is_admin := true;
     ctx_user_is_admin := true;
     ctx_request_id := "req-2" |}.

Definition public_image : Image :=
  {| img_imageId := PStr "ami-1"; img_isPublic := PBool true |}.

Definition private_image : Image :=
  {| img_imageId := PStr "ami-2"; img_isPublic := PBool false |}.

Definition service (host zone : string) : Service :=
  {| svc_host := PStr host; svc_availability_zone := zone |}.

Definition bound_address : FloatingIp :=
  {| fl_address := PStr "192.0.2.1"; fl_project_id := PStr "proj";
     fl_fixed_ip := Some (Some 36%N) |}.

Definition free_address : FloatingIp :=
  {| fl_address := PStr "192.0.2.2"; fl_project_id := PStr "proj";
     fl_fixed_ip := None |}.

(** Managers that write what they are asked to the audit log. *)
Definition managers : Services :=
  {| FLAGS_vpn_key_suffix := "-vpn";
     compute_delete := λ _ id, LOG_audit ("delete " +:+ py_str (PInt id));
     compute_update := λ _ id _, LOG_audit ("update " +:+ py_str (PInt id));
     volume_get_all := λ _, ret [Sample.volume "detached"; Sample.volume "attached"];
     volume_update := λ _ id _, LOG_audit ("update volume " +:+ py_str id);
     image_index := λ _, ret [public_image; private_image];
     image_show := λ _ id,
       if py_eqb id (PStr "ami-1") then ret public_image
       else if py_eqb id (PStr "ami-2") then ret private_image
       else raise IndexError;
     image_modify := λ _ _ operation_type, ret operation_type;
     db_service_get_all := λ _ disabled,
       ret (if disabled : bool
            then [service "node3" "east"; service "node4" "west"; service "node5" "west"]
            else [service "node1" "east"; service "node2" "east"]);
     db_floating_ip_get_all := λ _, ret [bound_address; free_address];
     db_floating_ip_get_all_by_project := λ _ _, ret [bound_address; free_address] |}.

(** A world with a VPN key, and with the instances of two reservations,
    one of them of the VPN image. *)
Definition vpn_key : KeyPair :=
  {| kp_user_id := "alice"; kp_name := "proj-vpn";
     kp_public_key := "public"; kp_fingerprint := "fingerprint-vpn" |}.

Definition stored : World :=
  {| key_pairs := <[("alice", "proj-vpn") := vpn_key]> (key_pairs Sample.world);
     security_groups := security_groups Sample.world;
     security_group_rules := security_group_rules Sample.world;
     next_rule_id := next_rule_id Sample.world;
     services := [service "node1" "east"];
     keys_generated := 0;
     audit_log := [] |}.

Definition vpn_instance : Instance :=
  {| inst_id := 3;
     inst_image_id := "ami-cloudpipe";
     inst_state := 0;
     inst_state_description := "running";
     inst_fixed_ip := None;
     inst_key_name := PStr "proj-vpn";
     inst_project_id := "proj";
     inst_host := PStr "node9";
     inst_instance_type := PStr "m1.tiny";
     inst_created_at := PStr "2011-01-01";
     inst_launch_index := PInt 0;
     inst_display_name := PNone;
     inst_display_description := PNone;
     inst_reservation_id := "r-2" |}.

Definition listing : Collaborators :=
  Sample.collaborators_listing
    [Sample.instance 1 "r-1"; vpn_instance; Sample.instance 2 "r-1"].

Definition flag_values (context : gmap string pyval) (name : string) : option pyval :=
  context !! name.

End Site.

(* ===================================================================== *)
(** * The model at work                                                   *)
(* ===================================================================== *)

Example id_to_ec2_id_36 : id_to_ec2_id 36 = Some "i-10".
Proof. reflexivity. Qed.
Example id_to_ec2_id_big : id_to_ec2_id 1234567 = Some "i-qglj".
Proof. vm_compute. reflexivity. Qed.
Example ec2_id_to_id_10 : ec2_id_to_id "i-10" = Ok 36.
Proof. reflexivity. Qed.

(* ===================================================================== *)
(** * Properties of the identifier codec                                  *)
(* ===================================================================== *)

Section CodecFacts.

Lemma digit_char_reads_back r : is_digit36 r → reads_back r = true.
Proof.
  intros [Hlo Hhi].
  assert (Hall : forallb (λ k, reads_back (Z.of_nat k)) (seq 0 36) = true)
    by (vm_compute; reflexivity).
  rewrite forallb_forall in Hall.
  specialize (Hall (Z.to_nat r)).
  rewrite Z2Nat.id in Hall by lia.
  apply Hall, in_seq. lia.
Qed.

Lemma digit_value_digit_char r : is_digit36 r → digit_value (digit_char r) = Some r.
Proof.
  intros Hr. pose proof (digit_char_reads_back r Hr) as Hb.
  unfold reads_back in Hb.
  destruct (digit_value (digit_char r)) as [d|]; [|discriminate].
  repeat (apply andb_prop in Hb as [Hb _]).
  apply Z.eqb_eq in Hb. congruence.
Qed.

Lemma digit_char_plain r :
  is_digit36 r →
  is_space (digit_char r) = false ∧ digit_char r ≠ "+"%char ∧ digit_char r ≠ "-"%char.
Proof.
  intros Hr. pose proof (digit_char_reads_back r Hr) as Hb.
  unfold reads_back in Hb.
  destruct (digit_value (digit_char r)) as [d|]; [|discriminate].
  apply andb_prop in Hb as [Hb Hminus].
  apply andb_prop in Hb as [Hb Hplus].
  apply andb_prop in Hb as [_ Hsp].
  apply negb_true_iff in Hsp, Hplus, Hminus.
  apply Ascii.eqb_neq in Hplus, Hminus. auto.
Qed.

(** *** The loop of [id_to_ec2_id] *)

Lemma loop_diverges_on_negative fuel :
  ∀ n digits, n < 0 → id_to_ec2_id_loop fuel n digits = None.
Proof.
  induction fuel as [|fuel IH]; intros n digits Hn; simpl; [reflexivity|].
  destruct (Z.eqb_spec n 0) as [->|_]; [lia|].
  apply IH. apply Z.div_lt_upper_bound; lia.
Qed.

Lemma log2_div36 n : 36 ≤ n → Z.log2 (n / 36) < Z.log2 n.
Proof.
  intros Hn.
  assert (0 < n / 36) by (apply Z.div_str_pos; lia).
  apply Z.log2_lt_pow2; [lia|].
  pose proof (Z.log2_spec n ltac:(lia)) as [Hlo Hhi].
  pose proof (Z.log2_nonneg n).
  rewrite Z.pow_succ_r in Hhi by assumption.
  apply Z.div_lt_upper_bound; lia.
Qed.

Lemma loop_returns fuel :
  ∀ n digits,
    0 ≤ n → (enough_fuel n ≤ fuel)%nat →
    is_Some (id_to_ec2_id_loop fuel n digits).
Proof.
  unfold enough_fuel.
  induction fuel as [|fuel IH]; intros n digits Hn Hfuel; [lia|].
  simpl. destruct (Z.eqb_spec n 0) as [->|Hne]; [eauto|].
  destruct (Z_lt_le_dec n 36) as [Hsmall|Hbig].
  - rewrite Z.div_small by lia.
    destruct fuel as [|fuel']; [lia|]. simpl. eauto.
  - apply IH; [apply Z.div_pos; lia|].
    pose proof (log2_div36 n Hbig). pose proof (Z.log2_nonneg (n / 36)). lia.
Qed.

Lemma loop_digits fuel :
  ∀ n digits out,
    0 ≤ n → id_to_ec2_id_loop fuel n digits = Some out →
    ∃ ds, out = (digits ++ map digit_char ds)%list
          ∧ Forall is_digit36 ds ∧ value_of ds = n ∧ (0 < n → ds ≠ []).
Proof.
  induction fuel as [|fuel IH]; intros n digits out Hn Hloop; [discriminate|].
  simpl in Hloop. destruct (Z.eqb_spec n 0) as [->|Hne].
  - injection Hloop as <-. exists []. rewrite app_nil_r.
    repeat split; [constructor|lia].
  - apply IH in Hloop as (ds & -> & Hds & Hval & _); [|apply Z.div_pos; lia].
    exists (n mod 36 :: ds). rewrite <- app_assoc. simpl.
    repeat split.
    + constructor; [|assumption]. apply Z.mod_pos_bound. lia.
    + rewrite Hval. symmetry. rewrite Z.add_comm. apply Z.div_mod. lia.
    + discriminate.
Qed.

(** *** Reading digits back *)

Lemma span_digits_all ds :
  ∀ acc count,
    Forall is_digit36 ds →
    span_digits 36 acc count (map digit_char ds)
    = (fold_left (λ a d, a * 36 + d) ds acc, (count + length ds)%nat, []).
Proof.
  induction ds as [|d ds IH]; intros acc count Hds; simpl.
  - by rewrite Nat.add_0_r.
  - inversion Hds as [|? ? Hd Hds']; subst.
    rewrite digit_value_digit_char by assumption.
    destruct (Z.ltb_spec d 36) as [_|Hge]; [|destruct Hd; lia].
    rewrite IH by assumption. do 2 f_equal. lia.
Qed.

Lemma fold_left_rev_value ds :
  fold_left (λ a d, a * 36 + d) (rev ds) 0 = value_of ds.
Proof.
  unfold value_of. rewrite <- fold_left_rev_right, rev_involutive.
  induction ds as [|d ds IH]; simpl; [reflexivity|]. rewrite IH. lia.
Qed.

Lemma int_of_digits ds :
  Forall is_digit36 ds → ds ≠ [] →
  int_of_string (string_of_list_ascii (map digit_char ds)) 36
  = Ok (fold_left (λ a d, a * 36 + d) ds 0).
Proof.
  intros Hds Hne. unfold int_of_string.
  rewrite list_ascii_of_string_of_list_ascii.
  destruct ds as [|d ds]; [done|].
  inversion Hds as [|? ? Hd Hds']; subst.
  destruct (digit_char_plain d Hd) as (Hsp & Hplus & Hminus).
  assert (Hstrip : lstrip (map digit_char (d :: ds)) = map digit_char (d :: ds))
    by (simpl; by rewrite Hsp).
  assert (Hsign : split_sign (map digit_char (d :: ds)) = (1, map digit_char (d :: ds))).
  { simpl. destruct (digit_char d) as [[] [] [] [] [] [] [] []]; congruence. }
  rewrite Hstrip, Hsign, Hstrip, span_digits_all by assumption.
  simpl length. simpl forallb. cbn match.
  destruct (fold_left _ _ _); reflexivity.
Qed.

(** Encoding a positive id and decoding the result gives the id back. *)
Lemma decode_encode_positive n :
  0 < n → ∃ ec2_id, id_to_ec2_id n = Some ec2_id ∧ ec2_id_to_id ec2_id = Ok n.
Proof.
  intros Hn. unfold id_to_ec2_id, id_to_ec2_id_fuel.
  destruct (loop_returns (enough_fuel n) n [] ltac:(lia) ltac:(lia)) as [out Hout].
  rewrite Hout. simpl. eexists; split; [reflexivity|].
  apply loop_digits in Hout as (ds & -> & Hds & Hval & Hne); [|lia].
  unfold ec2_id_to_id.
  change (slice_from 2 ("i-" +:+ ?s)) with s.
  rewrite app_nil_l, <- map_rev, int_of_digits.
  - by rewrite fold_left_rev_value, Hval.
  - by apply Forall_rev.
  - intros Hnil. apply (f_equal (@rev Z)) in Hnil.
    rewrite rev_involutive in Hnil. by apply Hne.
Qed.

(** X4: on a negative id the loop of [id_to_ec2_id] never ends, whatever
    the fuel: the call returns nothing. *)
Lemma id_to_ec2_id_negative n fuel : n < 0 → id_to_ec2_id_fuel fuel n = None.
Proof.
  intros Hn. unfold id_to_ec2_id_fuel.
  by rewrite loop_diverges_on_negative.
Qed.


(** More fuel than enough changes nothing. *)
Lemma loop_fuel_irrelevant fuel :
  ∀ fuel' n digits out,
    id_to_ec2_id_loop fuel n digits = Some out → (fuel ≤ fuel')%nat →
    id_to_ec2_id_loop fuel' n digits = Some out.
Proof.
  induction fuel as [|fuel IH]; intros fuel' n digits out Hloop Hle; [discriminate|].
  destruct fuel' as [|fuel']; [lia|]. simpl in *.
  destruct (n =? 0); [assumption|]. apply IH; [assumption|lia].
Qed.


End CodecFacts.

(** ** What [int] rejects and what it accepts *)

Section IntOfString.

Lemma literal_char_false c :
  literal_char c = false →
  digit_value c = None ∧ is_space c = false ∧ c ≠ "+"%char ∧ c ≠ "-"%char.
Proof.
  unfold literal_char. destruct (digit_value c); [discriminate|].
  intros Hc. apply orb_false_elim in Hc as [Hc Hminus].
  apply orb_false_elim in Hc as [Hsp Hplus].
  apply Ascii.eqb_neq in Hplus, Hminus. auto.
Qed.

Lemma in_lstrip c l : In c l → is_space c = false → In c (lstrip l).
Proof.
  induction l as [|x l IH]; intros Hin Hsp; [done|]. simpl.
  destruct (is_space x) eqn:Hx; [|assumption].
  destruct Hin as [->|Hin]; [congruence|auto].
Qed.

Lemma in_split_sign c l :
  In c l → c ≠ "+"%char → c ≠ "-"%char → In c (snd (split_sign l)).
Proof.
  intros Hin Hplus Hminus. destruct l as [|x l]; [done|].
  unfold split_sign.
  destruct (Ascii.eqb_spec x "+") as [->|Hx1];
    [destruct Hin; [congruence|assumption]|].
  destruct (Ascii.eqb_spec x "-") as [->|Hx2];
    [destruct Hin; [congruence|assumption]|].
  destruct x as [[] [] [] [] [] [] [] []]; first [assumption|congruence].
Qed.

Lemma in_span_digits_rest c base l :
  ∀ acc count,
    In c l → digit_value c = None →
    In c (snd (span_digits base acc count l)).
Proof.
  induction l as [|x l IH]; intros acc count Hin Hc; [done|]. simpl.
  destruct (digit_value x) as [d|] eqn:Hx; [|assumption].
  destruct (d <? base); [|assumption].
  destruct Hin as [->|Hin]; [congruence|]. by apply IH.
Qed.

Lemma forallb_is_space_false c l :
  In c l → is_space c = false → forallb is_space l = false.
Proof.
  intros Hin Hsp. destruct (forallb is_space l) eqn:Hall; [|reflexivity].
  rewrite forallb_forall in Hall. specialize (Hall c Hin). congruence.
Qed.

(** A character that no literal may hold makes [int] fail. *)
Lemma int_of_string_rejects s base c :
  In c (list_ascii_of_string s) → literal_char c = false →
  int_of_string s base = Raise ValueError.
Proof.
  intros Hin Hc. apply literal_char_false in Hc as (Hdig & Hsp & Hplus & Hminus).
  unfold int_of_string.
  pose proof (in_split_sign c _ (in_lstrip c _ Hin Hsp) Hplus Hminus) as Hin2.
  destruct (split_sign (lstrip (list_ascii_of_string s))) as [sign s2].
  simpl in Hin2.
  pose proof (in_span_digits_rest c base _ 0 0%nat (in_lstrip c _ Hin2 Hsp) Hdig) as Hin3.
  destruct (span_digits base 0 0 (lstrip s2)) as [[v count] rest].
  simpl in Hin3. rewrite (forallb_is_space_false c rest Hin3 Hsp).
  by destruct (count =? 0)%nat.
Qed.

Lemma lower_alnum_digit c :
  is_lower_alnum c = true →
  (∃ d, digit_value c = Some d ∧ 0 ≤ d < 36)
  ∧ is_space c = false ∧ c ≠ "+"%char ∧ c ≠ "-"%char.
Proof.
  destruct c as [[] [] [] [] [] [] [] []]; vm_compute; intros Hc;
    first [discriminate Hc
          | (split; [eexists; split; [reflexivity|split; congruence]
                    |repeat split; congruence])].
Qed.

Lemma span_digits_lower_alnum l :
  ∀ acc count,
    forallb is_lower_alnum l = true → 0 ≤ acc →
    ∃ v, 0 ≤ v ∧ span_digits 36 acc count l = (v, (count + length l)%nat, []).
Proof.
  induction l as [|c l IH]; intros acc count Hall Hacc; simpl.
  - exists acc. by rewrite Nat.add_0_r.
  - simpl in Hall. apply andb_prop in Hall as [Hc Hall].
    destruct (lower_alnum_digit c Hc) as ((d & -> & Hd) & _).
    destruct (Z.ltb_spec d 36) as [_|?]; [|lia].
    destruct (IH (acc * 36 + d) (S count) Hall ltac:(lia)) as (v & Hv & ->).
    exists v. split; [assumption|]. do 2 f_equal. lia.
Qed.

(** A string of the external form is decoded, to a number that is not
    negative. *)
Lemma ec2_id_to_id_accepts s :
  matches_ec2_id s = true → ∃ n, 0 ≤ n ∧ ec2_id_to_id s = Ok n.
Proof.
  unfold matches_ec2_id, ec2_id_to_id.
  destruct s as [|c1 [|c2 rest]]; try discriminate;
    try (destruct c1 as [[] [] [] [] [] [] [] []]; discriminate).
  destruct (Ascii.eqb_spec c1 "i") as [->|Hc1];
    [|destruct c1 as [[] [] [] [] [] [] [] []]; first [discriminate|congruence]].
  destruct (Ascii.eqb_spec c2 "-") as [->|Hc2];
    [|destruct c2 as [[] [] [] [] [] [] [] []]; first [discriminate|congruence]].
  intros Hm. apply andb_prop in Hm as [Hne Hall].
  simpl slice_from. unfold int_of_string.
  destruct rest as [|c rest]; [discriminate|].
  simpl list_ascii_of_string in *.
  pose proof Hall as Hall'. simpl in Hall'. apply andb_prop in Hall' as [Hc _].
  destruct (lower_alnum_digit c Hc) as (_ & Hsp & Hplus & Hminus).
  assert (Hstrip : ∀ t, lstrip (c :: t) = c :: t) by (intros; simpl; by rewrite Hsp).
  assert (Hsign : ∀ t, split_sign (c :: t) = (1, c :: t)).
  { intros t. simpl. destruct c as [[] [] [] [] [] [] [] []]; congruence. }
  rewrite Hstrip, Hsign, Hstrip.
  destruct (span_digits_lower_alnum _ 0 0%nat Hall ltac:(lia)) as (v & Hv & ->).
  simpl. exists v. split; [assumption|]. by destruct v.
Qed.

End IntOfString.

(* ===================================================================== *)
(** * Properties of the rule canonicaliser                                *)
(* ===================================================================== *)

Section Canonicaliser.

Context `{Collaborators}.

Ltac run := unfold bind, ret, raise, lift, get_world in *.


(** With a protocol and both ports taken as given, a group among the
    three and both ports within -1..65535, the value set gains the
    protocol as it was written and the two ports as integers. *)
Lemma canonicalise_ports context args w f t :
  truthy (source_security_group_name args) = false →
  truthy (cidr_ip args) = false →
  truthy (ip_protocol args) = true →
  truthy (from_port args) = true →
  truthy (to_port args) = true →
  py_int (from_port args) = Ok f →
  py_int (to_port args) = Ok t →
  _revoke_rule_args_to_dict context args w
  = (if negb (existsb (String.eqb (upper (py_str (ip_protocol args)))) valid_protocols)
     then Raise (InvalidInputException
                   (py_str (ip_protocol args) +:+ " is not a valid ipProtocol"))
     else if (Z.min f t <? -1) || (Z.max f t >? 65535)
          then Raise (InvalidInputException "Invalid port range")
          else Ok (Some (<["to_port" := PInt t]>
                        (<["from_port" := PInt f]>
                        (<["protocol" := PStr (py_str (ip_protocol args))]>
                        {[ "cidr" := PStr "0.0.0.0/0" ]})))),
     w).
Proof.
  intros Hname Hcidr Hproto Hfrom Hto Hf Ht.
  unfold _revoke_rule_args_to_dict. run.
  rewrite Hname, Hcidr, Hproto, Hfrom, Hto, Hf, Ht. simpl.
  repeat case_match; reflexivity.
Qed.

End Canonicaliser.

(* ===================================================================== *)
(** * The identifier codec: round trip and rejection                      *)
(* ===================================================================== *)

(** C1, at its boundary: [id_to_ec2_id(0)] leaves the loop at once and
    returns the bare prefix "i-" with no digit after it, and
    [ec2_id_to_id] does not give 0 back on it but raises ValueError, as
    [int('', 36)] does. *)
Theorem round_trip_breaks_at_zero :
  id_to_ec2_id 0 = Some "i-" ∧ ec2_id_to_id "i-" = Raise ValueError.
Proof. split; reflexivity. Qed.

(** The round trip of C1 on every other id: a positive id is encoded,
    and decoding the result gives the id back. *)
Lemma round_trip_positive (n : Z) :
  0 < n → ∃ ec2_id, id_to_ec2_id n = Some ec2_id ∧ ec2_id_to_id ec2_id = Ok n.
Proof. apply decode_encode_positive. Qed.

(** C3, as stated, fails: "xx10" does not begin with "i-", and it is
    decoded to 36 all the same. *)
Lemma prefix_is_not_checked :
  matches_ec2_id "xx10" = false ∧ ec2_id_to_id "xx10" = Ok 36.
Proof. split; reflexivity. Qed.

(** Letters of the upper case are decoded too. *)
Example upper_case_is_decoded :
  matches_ec2_id "i-ZZ" = false ∧ ec2_id_to_id "i-ZZ" = Ok 1295.
Proof. split; reflexivity. Qed.

(** C3, amended: [ec2_id_to_id] drops the first two characters without
    looking at them; it raises ValueError when nothing is left, and when
    what is left holds a character that is not a letter, a digit, a sign
    or white space; and every string of the form [^i-[0-9a-z]+$] is
    decoded, to a number that is not negative. *)
Theorem ec2_id_to_id_rejects (ec2_id : string) :
  (∀ c1 c2 rest, ec2_id = String c1 (String c2 rest) →
                 ec2_id_to_id ec2_id = ec2_id_to_id ("i-" +:+ rest))
  ∧ (slice_from 2 ec2_id = "" → ec2_id_to_id ec2_id = Raise ValueError)
  ∧ (∀ c, In c (list_ascii_of_string (slice_from 2 ec2_id)) → literal_char c = false →
          ec2_id_to_id ec2_id = Raise ValueError)
  ∧ (matches_ec2_id ec2_id = true → ∃ n, 0 ≤ n ∧ ec2_id_to_id ec2_id = Ok n).
Proof.
  split; [by intros c1 c2 rest ->|]. split; [|split].
  - unfold ec2_id_to_id. by intros ->.
  - intros c Hin Hc. by apply (int_of_string_rejects _ _ c).
  - apply ec2_id_to_id_accepts.
Qed.

Lemma ec2_id_to_id_rejects_witness :
  ec2_id_to_id "xx10" = ec2_id_to_id "i-10"
  ∧ ec2_id_to_id "i" = Raise ValueError
  ∧ ec2_id_to_id "i-1_0" = Raise ValueError
  ∧ ∃ n, 0 ≤ n ∧ ec2_id_to_id "i-10" = Ok n.
Proof.
  split; [|split; [|split]].
  - apply (ec2_id_to_id_rejects "xx10") with (c1 := "x"%char) (c2 := "x"%char).
    reflexivity.
  - apply (ec2_id_to_id_rejects "i"). reflexivity.
  - apply (ec2_id_to_id_rejects "i-1_0") with (c := "_"%char).
    + simpl. tauto.
    + reflexivity.
  - apply (ec2_id_to_id_rejects "i-10"). reflexivity.
Defined.

(* ===================================================================== *)
(** * Rule canonicalisation: ports, protocol and what is left out         *)
(* ===================================================================== *)

(** C2, where it fails: with the protocol given and [from_port=0],
    [to_port=65535] given as the integers they are, the rule is not
    accepted: [0] is false in the test [ip_protocol and from_port and
    to_port], the ports are taken as absent, and the rule by CIDR yields
    [None]. *)
Theorem port_zero_is_taken_as_absent `{Collaborators} (context : RequestContext) (w : World) :
  _revoke_rule_args_to_dict context
    {| ip_protocol := PStr "tcp"; from_port := PInt 0; to_port := PInt 65535;
       cidr_ip := PNone; user_id := PNone;
       source_security_group_name := PNone; source_security_group_owner_id := PNone |} w
  = (Ok None, w).
Proof. reflexivity. Qed.

(** The rest of C2 holds: written as strings, ports 0 to 65535 are
    accepted and 0 to 65536 rejected; -1 to -1 with ICMP is accepted; a
    protocol outside the three is rejected. *)
Lemma port_range_checks `{Collaborators} (context : RequestContext) (w : World) :
  _revoke_rule_args_to_dict context (Sample.ports (PStr "tcp") (PStr "0") (PStr "65535")) w
  = (Ok (Some (<["to_port" := PInt 65535]> (<["from_port" := PInt 0]>
              (<["protocol" := PStr "tcp"]> {[ "cidr" := PStr "0.0.0.0/0" ]})))), w)
  ∧ _revoke_rule_args_to_dict context (Sample.ports (PStr "tcp") (PStr "0") (PStr "65536")) w
    = (Raise (InvalidInputException "Invalid port range"), w)
  ∧ _revoke_rule_args_to_dict context (Sample.ports (PStr "ICMP") (PInt (-1)) (PInt (-1))) w
    = (Ok (Some (<["to_port" := PInt (-1)]> (<["from_port" := PInt (-1)]>
                (<["protocol" := PStr "ICMP"]> {[ "cidr" := PStr "0.0.0.0/0" ]})))), w)
  ∧ _revoke_rule_args_to_dict context (Sample.ports (PStr "gre") (PInt 1) (PInt 2)) w
    = (Raise (InvalidInputException "gre is not a valid ipProtocol"), w).
Proof. repeat split; reflexivity. Qed.

Section UnderspecifiedRules.

Context `{Collaborators}.

(** C4: a rule by CIDR, the one given (and accepted by IPy) or the
    default 0.0.0.0/0, whose protocol or one of whose ports is absent
    yields [None], no value set and no exception; a rule that names a
    source group which is found yields, with protocol and ports absent,
    the value set that holds the id of that group under [group_id] and
    nothing else. *)
Theorem underspecified_rule (context : RequestContext) (args : RuleArgs) (w : World) :
  ip_protocol args = PNone ∨ from_port args = PNone ∨ to_port args = PNone →
  (truthy (source_security_group_name args) = false →
   (truthy (cidr_ip args) = true → IPy_IP (cidr_ip args) = true) →
   _revoke_rule_args_to_dict context args w = (Ok None, w))
  ∧ (∀ project group,
       truthy (source_security_group_name args) = true →
       _get_source_project_id context (source_security_group_owner_id args) = Ok project →
       db.security_group_get_by_name (elevated context) project
                                     (source_security_group_name args) w
       = (Ok group, w) →
       _revoke_rule_args_to_dict context args w
       = (Ok (Some {[ "group_id" := PInt (sg_id group) ]}), w)).
Proof.
  intros Habsent.
  assert (Hcond : truthy (ip_protocol args) && truthy (from_port args)
                  && truthy (to_port args) = false).
  { destruct Habsent as [-> | [-> | ->]]; simpl;
      [reflexivity | by rewrite andb_false_r | by rewrite andb_false_r]. }
  split.
  - intros Hname Hipy. unfold _revoke_rule_args_to_dict, bind, ret, raise.
    rewrite Hname, Hcond.
    destruct (truthy (cidr_ip args)); [rewrite Hipy by reflexivity|]; reflexivity.
  - intros project group Hname Hproject Hgroup.
    unfold _revoke_rule_args_to_dict, bind, ret, lift.
    rewrite Hname, Hproject, Hgroup, Hcond. reflexivity.
Qed.

End UnderspecifiedRules.

Lemma underspecified_rule_witness :
  _revoke_rule_args_to_dict (H := Sample.collaborators) Sample.context
    (Sample.ports (PStr "tcp") PNone (PStr "80")) Sample.world
  = (Ok None, Sample.world)
  ∧ _revoke_rule_args_to_dict (H := Sample.collaborators) Sample.context
      (Sample.from_group "db") Sample.world
    = (Ok (Some {[ "group_id" := PInt 2 ]}), Sample.world).
Proof.
  split.
  - apply (underspecified_rule (H := Sample.collaborators)).
    + right; left; reflexivity.
    + reflexivity.
    + discriminate.
  - apply (underspecified_rule (H := Sample.collaborators) Sample.context
             (Sample.from_group "db") Sample.world
             (or_introl eq_refl)) with (project := PStr "proj") (group := Sample.db_group);
      reflexivity.
Defined.

(* ===================================================================== *)
(** * Authorising and revoking rules                                      *)
(* ===================================================================== *)

Section RuleStore.

Context `{Collaborators}.

Lemma canonicalise_canonical context args w values w' :
  _revoke_rule_args_to_dict context args w = (Ok (Some values), w') →
  canonical values.
Proof.
  unfold _revoke_rule_args_to_dict, db.security_group_get_by_name.
  unfold bind, ret, raise, lift, canonical.
  repeat (case_match; simpl in *; simplify_eq; try done);
    intros; simplify_eq; simplify_map_eq; eauto 10.
Qed.

Lemma canonical_with_parent values id :
  canonical values → canonical (<["parent_group_id" := id]> values).
Proof.
  unfold canonical. by rewrite !lookup_insert_ne.
Qed.

Lemma canonically_equal_with_parent values id rule :
  canonically_equal (<["parent_group_id" := id]> values) rule
  ↔ canonically_equal values rule.
Proof.
  unfold canonically_equal, db.column. by rewrite !lookup_insert_ne.
Qed.

Lemma some_canonically_equal_with_parent values id rules :
  Exists (canonically_equal (<["parent_group_id" := id]> values)) rules
  ↔ Exists (canonically_equal values) rules.
Proof.
  rewrite !Exists_exists.
  split; intros (rule & Hin & Heq); exists rule;
    (split; [assumption|]); by apply (canonically_equal_with_parent values id).
Qed.

Lemma is_duplicate_cidr values rule :
  is_Some (values !! "cidr") → is_Some (values !! "from_port") →
  is_Some (values !! "to_port") → is_Some (values !! "protocol") →
  ∃ b, is_duplicate ["cidr"; "from_port"; "to_port"; "protocol"] rule values = Ok b
       ∧ (b = true ↔
          same (rule_cidr rule) (db.column values "cidr")
          ∧ same (rule_from_port rule) (db.column values "from_port")
          ∧ same (rule_to_port rule) (db.column values "to_port")
          ∧ same (rule_protocol rule) (db.column values "protocol")).
Proof.
  intros [c Hc] [f Hf] [t Ht] [p Hp].
  unfold same, db.column. cbn. rewrite Hc, Hf, Ht, Hp. cbn.
  destruct (py_eqb (rule_cidr rule) c); cbn;
    [|eexists; split; [reflexivity|intuition discriminate]].
  destruct (py_eqb (rule_from_port rule) f); cbn;
    [|eexists; split; [reflexivity|intuition discriminate]].
  destruct (py_eqb (rule_to_port rule) t); cbn;
    [|eexists; split; [reflexivity|intuition discriminate]].
  destruct (py_eqb (rule_protocol rule) p); cbn;
    eexists; (split; [reflexivity|intuition discriminate]).
Qed.

(** The scan of [_security_group_rule_exists] returns, and it finds a
    rule exactly when one is canonically equal to the value set. *)
Lemma rule_exists_in_spec values rules :
  canonical values →
  ∃ b, rule_exists_in rules values = Ok b
       ∧ (b = true ↔ Exists (canonically_equal values) rules).
Proof.
  intros Hcanon. induction rules as [|rule rules (b & IHb & IH)].
  - exists false. split; [reflexivity|]. rewrite Exists_nil. intuition discriminate.
  - cbn [rule_exists_in]. setoid_rewrite Exists_cons.
    destruct (values !! "group_id") as [g|] eqn:Hg.
    + cbn. unfold canonically_equal at 1, same. rewrite Hg.
      destruct (py_eqb (rule_group_id rule) g).
      * exists true. split; [reflexivity|]. tauto.
      * exists b. split; [assumption|]. rewrite IH. intuition discriminate.
    + destruct Hcanon as [[? Hsome]|(Hc & Hf & Ht & Hp)]; [congruence|].
      destruct (is_duplicate_cidr values rule Hc Hf Ht Hp) as (d & -> & Hd).
      cbn. unfold canonically_equal at 1. rewrite Hg.
      destruct d.
      * exists true. split; [reflexivity|]. tauto.
      * exists b. split; [assumption|]. rewrite IH, <- Hd. intuition discriminate.
Qed.

(** [rule_matches] is the match on exactly the fields present. *)
Lemma rule_matches_spec criteria rule :
  rule_matches criteria rule = true ↔ matches_criteria criteria rule.
Proof.
  unfold rule_matches, matches_criteria. rewrite forallb_forall. split.
  - intros Hall k v Hkv. apply (Hall (k, v)).
    apply list_elem_of_In. by apply elem_of_map_to_list.
  - intros Hall [k v] Hin. apply Hall.
    apply list_elem_of_In in Hin. by apply elem_of_map_to_list.
Qed.

(** The loop of the revocation destroys the first rule that matches,
    and no other. *)
Lemma revoke_first_match context group criteria before rule after :
  Forall (λ r, ¬ matches_criteria criteria r) before →
  matches_criteria criteria rule →
  revoke_first context group criteria (before ++ rule :: after)%list
  = bind (db.security_group_rule_destroy context (rule_id rule)) (λ _,
    bind (compute_trigger_security_group_rules_refresh context (sg_id group)) (λ _,
    ret true)).
Proof.
  intros Hbefore Hrule. induction Hbefore as [|r before Hr _ IH]; cbn.
  - apply rule_matches_spec in Hrule. by rewrite Hrule.
  - destruct (rule_matches criteria r) eqn:Hm; [|exact IH].
    by apply rule_matches_spec in Hm.
Qed.

Lemma revoke_first_none context group criteria rules :
  Forall (λ r, ¬ matches_criteria criteria r) rules →
  revoke_first context group criteria rules
  = raise (ApiError "No rule for the specified parameters.").
Proof.
  induction 1 as [|r rules Hr _ IH]; cbn; [done|].
  destruct (rule_matches criteria r) eqn:Hm; [|exact IH].
  by apply rule_matches_spec in Hm.
Qed.

(** With ids that are keys, destroying the row of a rule takes that row
    out of the table and leaves every other row in place. *)
Lemma without_rule_exactly w rule t1 t2 :
  NoDup (map rule_id (security_group_rules w)) →
  security_group_rules w = (t1 ++ rule :: t2)%list →
  security_group_rules (without_rule (rule_id rule) w) = (t1 ++ t2)%list.
Proof.
  intros Hnodup Htable. unfold without_rule. cbn. rewrite Htable in *.
  rewrite map_app in Hnodup. cbn in Hnodup.
  apply NoDup_app in Hnodup as (_ & Hdisj & Hnodup2).
  apply NoDup_cons in Hnodup2 as [Hnotin _].
  rewrite List.filter_app. cbn. rewrite Z.eqb_refl. cbn.
  f_equal; apply forallb_filter_id, forallb_forall; intros r Hr;
    apply negb_true_iff, Z.eqb_neq; intros Heq.
  - apply (Hdisj (rule_id r)).
    + apply list_elem_of_In, in_map, Hr.
    + rewrite Heq. left.
  - apply Hnotin. rewrite <- Heq. apply list_elem_of_In, in_map, Hr.
Qed.

Lemma rules_of_in_table group w before rule after :
  db.rules_of group w = (before ++ rule :: after)%list →
  ∃ t1 t2, security_group_rules w = (t1 ++ rule :: t2)%list.
Proof.
  intros Hrules. apply in_split.
  assert (Hin : In rule (db.rules_of group w))
    by (rewrite Hrules; apply in_elt).
  unfold db.rules_of in Hin. by apply List.filter_In in Hin as [? _].
Qed.

End RuleStore.

Section AuthorizeAndRevoke.

Context `{Collaborators}.

(** C5: once the group is found and the request canonicalised,
    authorising fails with the error "This rule already exists in
    group ..." of the API, the rule table left as it was, exactly when
    a rule of the group is canonically equal to the value set: for a
    value set by CIDR when cidr, from_port, to_port and protocol all
    match, for one that refers to a source group when the [group_id]
    match, ports and protocol ignored.  Otherwise the rule is created;
    so it is for a source group that no rule of the group refers to,
    whatever the ports. *)
Theorem authorize_detects_duplicates
    (context : RequestContext) (group_name : string) (kwargs : RuleArgs)
    (w w1 : World) (group : SecurityGroup) (values : gmap string pyval) :
  bind (LOG_audit ("Authorize security group ingress " +:+ group_name))
       (λ _, compute_ensure_default_security_group context) w = (Ok tt, w1) →
  db.security_group_get_by_name context (PStr (ctx_project_id context))
                                (PStr group_name) w1 = (Ok group, w1) →
  _revoke_rule_args_to_dict context kwargs w1 = (Ok (Some values), w1) →
  let create :=
    bind (db.security_group_rule_create context
            (<["parent_group_id" := PInt (sg_id group)]> values)) (λ _,
    bind (compute_trigger_security_group_rules_refresh context (sg_id group)) (λ _,
    ret true)) in
  (Exists (canonically_equal values) (db.rules_of group w1) →
   authorize_security_group_ingress context group_name kwargs w
   = (Raise (ApiError ("This rule already exists in group " +:+ group_name)), w1))
  ∧ (¬ Exists (canonically_equal values) (db.rules_of group w1) →
     authorize_security_group_ingress context group_name kwargs w = create w1)
  ∧ (∀ group_id,
       values !! "group_id" = Some group_id →
       Forall (λ rule, py_eqb (rule_group_id rule) group_id = false)
              (db.rules_of group w1) →
       authorize_security_group_ingress context group_name kwargs w = create w1).
Proof.
  intros Hdefault Hgroup Hvalues create.
  pose proof (canonical_with_parent values (PInt (sg_id group))
                (canonicalise_canonical _ _ _ _ _ Hvalues)) as Hcanon.
  destruct (rule_exists_in_spec _ (db.rules_of group w1) Hcanon) as (b & Hscan & Hb).
  rewrite some_canonically_equal_with_parent in Hb.
  assert (Hrun : authorize_security_group_ingress context group_name kwargs w
                 = if b
                   then (Raise (ApiError ("This rule already exists in group "
                                          +:+ group_name)), w1)
                   else create w1).
  { unfold authorize_security_group_ingress, _security_group_rule_exists, create.
    unfold bind, LOG_audit, get_world, lift in *. cbn in *.
    rewrite Hdefault, Hgroup, Hvalues, Hscan. by destruct b. }
  assert (Hfresh : ¬ Exists (canonically_equal values) (db.rules_of group w1) →
                   authorize_security_group_ingress context group_name kwargs w
                   = create w1).
  { intros Hnone. rewrite Hrun. destruct b; [|reflexivity].
    exfalso. by apply Hnone, Hb. }
  split; [|split].
  - intros Hdup. apply Hb in Hdup as ->. exact Hrun.
  - exact Hfresh.
  - intros group_id Hid Hothers. apply Hfresh.
    rewrite Exists_exists. intros (rule & Hin & Heq).
    rewrite Forall_forall in Hothers. specialize (Hothers rule Hin).
    unfold canonically_equal, same in Heq. rewrite Hid in Heq. congruence.
Qed.

(** C6: once the group is found and the request canonicalised into
    criteria, a rule matches when it matches on exactly the fields the
    criteria hold; revoking destroys the first rule of the group that
    matches, which takes that one row out of the rule table and leaves
    every other row, and then triggers the refresh; when no rule of the
    group matches it fails with the error "No rule for the specified
    parameters." of the API and the rule table is as it was. *)
Theorem revoke_removes_first_match
    (context : RequestContext) (group_name : string) (kwargs : RuleArgs)
    (w w1 : World) (group : SecurityGroup) (criteria : gmap string pyval) :
  bind (LOG_audit ("Revoke security group ingress " +:+ group_name))
       (λ _, compute_ensure_default_security_group context) w = (Ok tt, w1) →
  db.security_group_get_by_name context (PStr (ctx_project_id context))
                                (PStr group_name) w1 = (Ok group, w1) →
  _revoke_rule_args_to_dict context kwargs w1 = (Ok (Some criteria), w1) →
  NoDup (map rule_id (security_group_rules w1)) →
  (∀ rule, rule_matches criteria rule = true ↔ matches_criteria criteria rule)
  ∧ (∀ before rule after,
       db.rules_of group w1 = (before ++ rule :: after)%list →
       Forall (λ r, ¬ matches_criteria criteria r) before →
       matches_criteria criteria rule →
       revoke_security_group_ingress context group_name kwargs w
       = bind (compute_trigger_security_group_rules_refresh context (sg_id group))
              (λ _, ret true) (without_rule (rule_id rule) w1)
       ∧ ∃ t1 t2,
           security_group_rules w1 = (t1 ++ rule :: t2)%list
           ∧ security_group_rules (without_rule (rule_id rule) w1) = (t1 ++ t2)%list)
  ∧ (Forall (λ r, ¬ matches_criteria criteria r) (db.rules_of group w1) →
     revoke_security_group_ingress context group_name kwargs w
     = (Raise (ApiError "No rule for the specified parameters."), w1)).
Proof.
  intros Hdefault Hgroup Hcriteria Hnodup.
  assert (Hrun : revoke_security_group_ingress context group_name kwargs w
                 = revoke_first context group criteria (db.rules_of group w1) w1).
  { unfold revoke_security_group_ingress.
    unfold bind, LOG_audit, get_world in *. cbn in *.
    by rewrite Hdefault, Hgroup, Hcriteria. }
  split; [apply rule_matches_spec|]. split.
  - intros before rule after Hrules Hbefore Hrule. split.
    + rewrite Hrun, Hrules, (revoke_first_match _ _ _ _ _ _ Hbefore Hrule).
      reflexivity.
    + destruct (rules_of_in_table _ _ _ _ _ Hrules) as (t1 & t2 & Htable).
      exists t1, t2. split; [assumption|]. by apply without_rule_exactly.
  - intros Hnone. by rewrite Hrun, (revoke_first_none _ _ _ _ Hnone).
Qed.

End AuthorizeAndRevoke.

Lemma authorize_detects_duplicates_witness :
  let authorize := authorize_security_group_ingress (H := Sample.collaborators) in
  let w1 := Sample.audited "Authorize security group ingress web" in
  (* the rule of row 2 once more *)
  authorize Sample.context "web" (Sample.ports (PStr "tcp") (PStr "80") (PStr "80"))
            Sample.world
  = (Raise (ApiError "This rule already exists in group web"), w1)
  (* the same ports for another protocol *)
  ∧ fst (authorize Sample.context "web" (Sample.ports (PStr "udp") (PStr "80") (PStr "80"))
                   Sample.world) = Ok true
  (* a source group that no rule of the group refers to *)
  ∧ fst (authorize Sample.context "web" (Sample.from_group "cache") Sample.world) = Ok true.
Proof.
  intros authorize w1. split; [|split].
  - apply (authorize_detects_duplicates (H := Sample.collaborators) Sample.context "web"
             (Sample.ports (PStr "tcp") (PStr "80") (PStr "80")) Sample.world w1 Sample.web
             (<["to_port" := PInt 80]> (<["from_port" := PInt 80]>
              (<["protocol" := PStr "tcp"]> {[ "cidr" := PStr "0.0.0.0/0" ]}))));
      [reflexivity | reflexivity | reflexivity |].
    apply Exists_cons_tl, Exists_cons_hd. repeat split.
  - unfold authorize.
    rewrite (proj1 (proj2
      (authorize_detects_duplicates (H := Sample.collaborators) Sample.context "web"
         (Sample.ports (PStr "udp") (PStr "80") (PStr "80")) Sample.world w1 Sample.web
         (<["to_port" := PInt 80]> (<["from_port" := PInt 80]>
          (<["protocol" := PStr "udp"]> {[ "cidr" := PStr "0.0.0.0/0" ]})))
         eq_refl eq_refl eq_refl))); [reflexivity|].
    intros Hdup. vm_compute in Hdup.
    repeat (apply Exists_cons in Hdup as [Hdup|Hdup]; [intuition discriminate|]).
    by apply Exists_nil in Hdup.
  - unfold authorize.
    assert (Hvalues : _revoke_rule_args_to_dict (H := Sample.collaborators) Sample.context
                        (Sample.from_group "cache") w1
                      = (Ok (Some {[ "group_id" := PInt 3 ]}), w1))
      by (vm_compute; reflexivity).
    rewrite (proj2 (proj2
      (authorize_detects_duplicates (H := Sample.collaborators) Sample.context "web"
         (Sample.from_group "cache") Sample.world w1 Sample.web
         {[ "group_id" := PInt 3 ]} eq_refl eq_refl Hvalues)) (PInt 3) eq_refl);
      [vm_compute; reflexivity|].
    repeat constructor.
Defined.

Lemma revoke_removes_first_match_witness :
  let revoke := revoke_security_group_ingress (H := Sample.collaborators) in
  (* both rows 4 and 5 let the group [db] in: row 4 goes, row 5 stays *)
  map rule_id (security_group_rules
                 (snd (revoke Sample.context "web" (Sample.from_group "db") Sample.world)))
  = [1; 2; 3; 5]
  (* no rule of [web] lets the group [cache] in *)
  ∧ revoke Sample.context "web" (Sample.from_group "cache") Sample.world
    = (Raise (ApiError "No rule for the specified parameters."),
       Sample.audited "Revoke security group ingress web").
Proof.
  intros revoke.
  pose (w1 := Sample.audited "Revoke security group ingress web").
  assert (Hkeys : NoDup (map rule_id (security_group_rules w1))).
  { apply (bool_decide_unpack _). vm_compute. exact I. }
  assert (Hdb : _revoke_rule_args_to_dict (H := Sample.collaborators) Sample.context
                  (Sample.from_group "db") w1
                = (Ok (Some {[ "group_id" := PInt 2 ]}), w1))
    by (vm_compute; reflexivity).
  assert (Hcache : _revoke_rule_args_to_dict (H := Sample.collaborators) Sample.context
                     (Sample.from_group "cache") w1
                   = (Ok (Some {[ "group_id" := PInt 3 ]}), w1))
    by (vm_compute; reflexivity).
  split.
  - destruct (revoke_removes_first_match (H := Sample.collaborators) Sample.context "web"
                (Sample.from_group "db") Sample.world w1 Sample.web
                {[ "group_id" := PInt 2 ]} eq_refl eq_refl Hdb Hkeys)
      as (Hmatch & Hfirst & _).
    destruct (Hfirst [Sample.cidr_rule 1 1 "tcp" 22 22 "10.0.0.0/8";
                      Sample.cidr_rule 2 1 "tcp" 80 80 "0.0.0.0/0"]
                     (Sample.group_rule 4 1 "tcp" 5432 5432 2)
                     [Sample.group_rule 5 1 "udp" 53 53 2]) as (Hrun & _).
    + vm_compute; reflexivity.
    + repeat constructor; intros Hm; apply Hmatch in Hm; vm_compute in Hm; discriminate Hm.
    + apply Hmatch. vm_compute; reflexivity.
    + unfold revoke. rewrite Hrun. vm_compute; reflexivity.
  - destruct (revoke_removes_first_match (H := Sample.collaborators) Sample.context "web"
                (Sample.from_group "cache") Sample.world w1 Sample.web
                {[ "group_id" := PInt 3 ]} eq_refl eq_refl Hcache Hkeys)
      as (Hmatch & _ & Hnone).
    apply Hnone.
    repeat constructor; intros Hm; apply Hmatch in Hm; vm_compute in Hm; discriminate Hm.
Defined.

(* ===================================================================== *)
(** * Key pairs                                                           *)
(* ===================================================================== *)

Section KeyPairs.

Context `{Collaborators}.

(** C8: creating a key pair under a (user, name) that is stored
    already fails with Duplicate; the stored key pairs are as they
    were, and the crypto module has generated nothing: the check comes
    before the generation. *)
Theorem create_key_pair_existing
    (context : RequestContext) (key_name : string) (w : World) (key : KeyPair) :
  key_pairs w !! (ctx_user_id context, key_name) = Some key →
  ∃ w',
    create_key_pair context key_name w
    = (Raise (Duplicate ("The key_pair " +:+ key_name +:+ " already exists")), w')
    ∧ key_pairs w' = key_pairs w
    ∧ keys_generated w' = keys_generated w.
Proof.
  intros Hstored. eexists.
  unfold create_key_pair, _gen_key, db.key_pair_get.
  unfold bind, try_except, raise, LOG_audit. cbn. rewrite Hstored.
  repeat split.
Qed.

(** Under a (user, name) that is free the key material is generated,
    once, and the key pair is stored with its public key and
    fingerprint. *)
Lemma create_key_pair_fresh
    (context : RequestContext) (key_name : string) (w : World) :
  key_pairs w !! (ctx_user_id context, key_name) = None →
  ∃ w' private public print,
    crypto_material (keys_generated w) = (private, public, print)
    ∧ create_key_pair context key_name w
      = (Ok {| keyName_ := key_name; keyFingerprint := print; keyMaterial := private |},
         w')
    ∧ keys_generated w' = S (keys_generated w)
    ∧ key_pairs w' !! (ctx_user_id context, key_name)
      = Some {| kp_user_id := ctx_user_id context; kp_name := key_name;
                kp_public_key := public; kp_fingerprint := print |}.
Proof.
  intros Hfree.
  destruct (crypto_material (keys_generated w)) as [[private public] print] eqn:Hgen.
  eexists _, private, public, print. split; [reflexivity|].
  unfold create_key_pair, _gen_key, db.key_pair_get, crypto_generate_key_pair.
  unfold bind, try_except, raise, ret, LOG_audit. cbn. rewrite Hfree. cbn.
  rewrite Hgen. cbn.
  repeat split. apply lookup_insert_eq.
Qed.

(** C9: deleting a key pair returns [True] and raises nothing, whether
    the key pair is stored or not; afterwards no key pair is stored
    under that (user, name), and the others are as they were. *)
Theorem delete_key_pair_tolerant
    (context : RequestContext) (key_name : string) (w : World) :
  fst (delete_key_pair context key_name w) = Ok true
  ∧ key_pairs (snd (delete_key_pair context key_name w))
    = delete (ctx_user_id context, key_name) (key_pairs w).
Proof.
  unfold delete_key_pair, db.key_pair_destroy.
  unfold bind, try_except, ret, LOG_audit. cbn.
  destruct (key_pairs w !! (ctx_user_id context, key_name)) eqn:Hstored; cbn.
  - split; reflexivity.
  - split; [reflexivity|]. symmetry. by apply delete_id.
Qed.

End KeyPairs.

Lemma create_key_pair_existing_witness :
  ∃ w',
    create_key_pair (H := Sample.collaborators) Sample.context "laptop" Sample.world
    = (Raise (Duplicate "The key_pair laptop already exists"), w')
    ∧ key_pairs w' = key_pairs Sample.world
    ∧ keys_generated w' = keys_generated Sample.world.
Proof.
  apply (create_key_pair_existing (H := Sample.collaborators) Sample.context "laptop"
           Sample.world
           {| kp_user_id := "alice"; kp_name := "laptop";
              kp_public_key := "public"; kp_fingerprint := "fingerprint" |}).
  vm_compute. reflexivity.
Defined.

(** Deleting a key pair that is not there, in the small deployment. *)
Example delete_missing_key_pair :
  key_pairs Sample.world !! ("alice", "desktop") = None
  ∧ fst (delete_key_pair Sample.context "desktop" Sample.world) = Ok true.
Proof. split; vm_compute; reflexivity. Qed.

(* ===================================================================== *)
(** * Volumes                                                             *)
(* ===================================================================== *)

Lemma py_eqb_str (v : pyval) (s : string) : py_eqb v (PStr s) = true ↔ v = PStr s.
Proof.
  destruct v as [|b|z|t]; cbn; try (split; [discriminate|congruence]).
  rewrite String.eqb_eq. split; congruence.
Qed.

(** C10: a volume whose [attach_status] is not "attached" is given an
    [attachmentSet] of exactly one entry, the empty one; one whose
    [attach_status] is "attached" is given one entry that holds the
    attach time, the device (the mount point), the external id of the
    instance and the status "attached". *)
Theorem format_volume_attachment (context : RequestContext) (volume : Volume) :
  (vol_attach_status volume ≠ PStr "attached" →
   attachmentSet (_format_volume context volume) = [ ∅ ])
  ∧ (vol_attach_status volume = PStr "attached" →
     ∃ entry,
       attachmentSet (_format_volume context volume) = [ entry ]
       ∧ entry !! "attachTime" = Some (vol_attach_time volume)
       ∧ entry !! "device" = Some (vol_mountpoint volume)
       ∧ entry !! "instanceId"
         = Some (match vol_instance volume with
                 | Some instance => PStr (ec2_id_of_key (vi_id instance))
                 | None => PNone
                 end)
       ∧ entry !! "status" = Some (PStr "attached")).
Proof.
  unfold _format_volume. split.
  - intros Hstatus.
    destruct (py_eqb (vol_attach_status volume) (PStr "attached")) eqn:Heq.
    + by apply py_eqb_str in Heq.
    + by destruct (vol_instance volume).
  - intros Hstatus. rewrite Hstatus.
    destruct (vol_instance volume); cbn; eexists; (split; [reflexivity|]);
      repeat split; by simplify_map_eq.
Qed.

Lemma format_volume_attachment_witness :
  attachmentSet (_format_volume Sample.context (Sample.volume "detached")) = [ ∅ ]
  ∧ ∃ entry,
      attachmentSet (_format_volume Sample.context (Sample.volume "attached")) = [ entry ]
      ∧ entry !! "instanceId" = Some (PStr "i-10").
Proof.
  split.
  - apply (format_volume_attachment Sample.context (Sample.volume "detached")).
    discriminate.
  - destruct (proj2 (format_volume_attachment Sample.context (Sample.volume "attached"))
                    eq_refl) as (entry & Hset & _ & _ & Hinstance & _).
    exists entry. split; assumption.
Defined.

(* ===================================================================== *)
(** * Running instances                                                   *)
(* ===================================================================== *)

Section RunInstances.

Context `{Collaborators}.

(** The counts handed to the compute manager. *)
Lemma create_args_counts (kwargs : RunKwargs) (args : CreateArgs) :
  create_args kwargs = Ok args →
  (kw kwargs !! "max_count" = None → arg_max_count args = 1)
  ∧ (kw kwargs !! "min_count" = None → arg_min_count args = arg_max_count args).
Proof.
  unfold create_args, rbind, kwargs_get. intros Hargs.
  destruct (kw kwargs !! "max_count") as [given_max|] eqn:Hmax;
    destruct (kw kwargs !! "min_count") as [given_min|] eqn:Hmin; cbn in Hargs;
    repeat (case_match; simplify_eq; cbn in * ); split; intros; congruence.
Qed.

(** C7: with [max_count] absent the compute manager is asked for at
    most 1 instance, and with [min_count] absent for at least as many
    as at most, so with both absent for exactly 1; the call then
    formats the reservation of the first instance created and returns
    its one entry; if the formatting yields more than one entry, the
    call fails with AssertionError. *)
Theorem run_instances_one_reservation (context : RequestContext) (kwargs : RunKwargs) :
  (∀ image_id instance_type,
     kw kwargs !! "max_count" = None →
     kw kwargs !! "min_count" = None →
     kw kwargs !! "image_id" = Some image_id →
     instance_types_get_by_type (kwargs_get (kw kwargs) "instance_type" PNone)
     = Ok instance_type →
     ∃ args, create_args kwargs = Ok args
             ∧ arg_max_count args = 1 ∧ arg_min_count args = 1)
  ∧ (∀ args,
       create_args kwargs = Ok args →
       (kw kwargs !! "max_count" = None → arg_max_count args = 1)
       ∧ (kw kwargs !! "min_count" = None → arg_min_count args = arg_max_count args))
  ∧ (∀ args w first rest w1 reservations w2,
       create_args kwargs = Ok args →
       compute_create context args w = (Ok (first :: rest), w1) →
       _format_instances context None
         {[ "reservation_id" := PStr (inst_reservation_id first) ]} w1
       = (Ok reservations, w2) →
       (∀ r, reservations = [r] → run_instances context kwargs w = (Ok r, w2))
       ∧ ((1 < length reservations)%nat →
          run_instances context kwargs w = (Raise AssertionError, w2))).
Proof.
  split; [|split].
  - intros image_id instance_type Hmax Hmin Himage Htype.
    unfold create_args, rbind. unfold kwargs_get at 1. rewrite Hmax. cbn.
    rewrite Htype, Himage. unfold kwargs_get at 1. rewrite Hmin. cbn.
    eexists. repeat split.
  - apply create_args_counts.
  - intros args w first rest w1 reservations w2 Hargs Hcreate Hformat.
    assert (Hrun : run_instances context kwargs w
                   = match reservations with
                     | [r] => (Ok r, w2)
                     | _ => (Raise AssertionError, w2)
                     end).
    { unfold run_instances, _format_run_instances.
      unfold bind at 1 2, lift. rewrite Hargs, Hcreate.
      unfold bind at 1. rewrite Hformat.
      by destruct reservations as [|? [|? ?]]. }
    split.
    + by intros r ->.
    + intros Hmany. rewrite Hrun.
      destruct reservations as [|? [|? ?]]; cbn in Hmany; [lia|lia|reflexivity].
Qed.

End RunInstances.

Lemma run_instances_one_reservation_witness :
  let kwargs := {| kw := {[ "image_id" := PStr "ami-1" ]}; kw_placement := None |} in
  (∃ args, create_args (H := Sample.collaborators) kwargs = Ok args
           ∧ arg_max_count args = 1 ∧ arg_min_count args = 1)
  ∧ (∃ r, fst (run_instances (H := Sample.collaborators) Sample.context kwargs Sample.world)
          = Ok r
          ∧ reservationId r = "r-1" ∧ map instanceId (instancesSet r) = ["i-1"])
  ∧ fst (run_instances (H := Sample.collaborators_unfiltered) Sample.context kwargs
                       Sample.world)
    = Raise AssertionError.
Proof.
  intros kwargs. split; [|split].
  - apply (run_instances_one_reservation (H := Sample.collaborators) Sample.context kwargs)
      with (image_id := PStr "ami-1") (instance_type := PNone);
      vm_compute; reflexivity.
  - destruct (create_args (H := Sample.collaborators) kwargs) as [args|] eqn:Hargs;
      [|vm_compute in Hargs; discriminate Hargs].
    destruct (compute_create (Collaborators := Sample.collaborators) Sample.context args
                             Sample.world) as [created w1] eqn:Hcreate.
    vm_compute in Hcreate. injection Hcreate as <- <-.
    destruct (_format_instances (H := Sample.collaborators) Sample.context None
                {[ "reservation_id" := PStr "r-1" ]} Sample.world)
      as [formatted w2] eqn:Hformat.
    destruct formatted as [reservations|]; [|vm_compute in Hformat; discriminate Hformat].
    destruct reservations as [|r [|? ?]];
      try (vm_compute in Hformat; discriminate Hformat).
    exists r.
    rewrite (proj1 (proj2 (proj2
      (run_instances_one_reservation (H := Sample.collaborators) Sample.context kwargs))
      args Sample.world _ _ _ _ _ Hargs eq_refl Hformat) r eq_refl).
    vm_compute in Hformat. injection Hformat as <- <-. repeat split.
  - destruct (create_args (H := Sample.collaborators_unfiltered) kwargs)
      as [args|] eqn:Hargs; [|vm_compute in Hargs; discriminate Hargs].
    destruct (_format_instances (H := Sample.collaborators_unfiltered) Sample.context None
                {[ "reservation_id" := PStr "r-1" ]} Sample.world)
      as [formatted w2] eqn:Hformat.
    destruct formatted as [reservations|]; [|vm_compute in Hformat; discriminate Hformat].
    rewrite (proj2 (proj2 (proj2
      (run_instances_one_reservation (H := Sample.collaborators_unfiltered)
         Sample.context kwargs))
      args Sample.world _ _ _ _ _ Hargs eq_refl Hformat)); [reflexivity|].
    vm_compute in Hformat. injection Hformat as <- <-. cbn. lia.
Defined.

(* ===================================================================== *)
(** * More properties of the controller                                   *)
(* ===================================================================== *)

Section CodecMore.

Lemma digit_char_lower_alnum r : is_digit36 r → is_lower_alnum (digit_char r) = true.
Proof.
  intros [Hlo Hhi].
  assert (Hall : forallb (λ k, is_lower_alnum (digit_char (Z.of_nat k))) (seq 0 36) = true)
    by (vm_compute; reflexivity).
  rewrite forallb_forall in Hall.
  specialize (Hall (Z.to_nat r)).
  rewrite Z2Nat.id in Hall by lia.
  apply Hall, in_seq. lia.
Qed.

Lemma lower_alnum_digit_char c :
  is_lower_alnum c = true → ∃ d, is_digit36 d ∧ c = digit_char d.
Proof.
  destruct c as [[] [] [] [] [] [] [] []]; intros Hc; vm_compute in Hc;
    try discriminate Hc.
  all: match goal with
       | |- ∃ d, _ ∧ ?c = _ =>
           let v := eval vm_compute in (digit_value c) in
           match v with
           | Some ?d => exists d; split; [unfold is_digit36; lia | reflexivity]
           end
       end.
Qed.

(** The loop on a positive id: the digits it adds, least significant
    first, end in one that is not zero. *)
Lemma loop_digits_positive fuel :
  ∀ n digits out,
    0 < n → id_to_ec2_id_loop fuel n digits = Some out →
    ∃ ds, out = (digits ++ map digit_char ds)%list
          ∧ Forall is_digit36 ds ∧ value_of ds = n ∧ ds ≠ [] ∧ trimmed ds.
Proof.
  induction fuel as [|fuel IH]; intros n digits out Hn Hloop; [discriminate|].
  simpl in Hloop. destruct (Z.eqb_spec n 0) as [->|Hne]; [lia|].
  assert (Hr : is_digit36 (n mod 36)) by (apply Z.mod_pos_bound; lia).
  destruct (Z_lt_le_dec n 36) as [Hsmall|Hbig].
  - rewrite Z.div_small in Hloop by lia.
    destruct fuel as [|fuel']; [discriminate|]. simpl in Hloop.
    injection Hloop as <-. exists [n mod 36].
    rewrite Z.mod_small by lia. repeat split.
    + by constructor; [rewrite <- (Z.mod_small n 36) by lia|].
    + simpl. lia.
    + discriminate.
    + unfold trimmed. simpl. intros [=]. lia.
  - apply IH in Hloop as (ds & -> & Hds & Hval & Hne' & Htrim);
      [|apply Z.div_str_pos; lia].
    exists (n mod 36 :: ds). rewrite <- app_assoc. repeat split.
    + by constructor.
    + simpl. rewrite Hval. symmetry. rewrite Z.add_comm. apply Z.div_mod. lia.
    + discriminate.
    + unfold trimmed in *. destruct ds; [done|]. by rewrite last_cons_cons.
Qed.

Lemma value_of_nonneg ds : Forall is_digit36 ds → 0 ≤ value_of ds.
Proof.
  induction 1 as [|d ds [Hd _] _ IH]; simpl; [lia|]. unfold value_of in *. simpl. lia.
Qed.

Lemma value_of_zero ds :
  Forall is_digit36 ds → value_of ds = 0 → Forall (λ d, d = 0) ds.
Proof.
  induction 1 as [|d ds [Hd Hd'] Hds IH]; intros Hval; [constructor|].
  pose proof (value_of_nonneg ds Hds). unfold value_of in *. simpl in Hval.
  constructor; [lia|]. apply IH. lia.
Qed.

(** A number has one list of base-36 digits with no zero at its most
    significant end. *)
Lemma value_of_injective ds1 :
  ∀ ds2,
    Forall is_digit36 ds1 → Forall is_digit36 ds2 → trimmed ds1 → trimmed ds2 →
    value_of ds1 = value_of ds2 → ds1 = ds2.
Proof.
  assert (Hzero : ∀ ds, Forall is_digit36 ds → trimmed ds → value_of ds = 0 → ds = []).
  { intros ds Hds Htrim Hval. pose proof (value_of_zero ds Hds Hval) as Hall.
    destruct ds as [|d ds] using rev_ind; [reflexivity|].
    exfalso. apply Htrim. rewrite last_snoc. f_equal.
    apply Forall_app in Hall as [_ Hd]. by inversion Hd. }
  induction ds1 as [|d1 ds1 IH]; intros ds2 H1 H2 T1 T2 Hval.
  - symmetry. apply Hzero; [assumption|assumption|]. by rewrite <- Hval.
  - destruct ds2 as [|d2 ds2]; [by apply Hzero|].
    inversion H1 as [|? ? [? ?] Hds1]; inversion H2 as [|? ? [? ?] Hds2]; subst.
    unfold value_of in Hval. simpl in Hval. fold (value_of ds1) (value_of ds2) in Hval.
    assert (d1 = d2 ∧ value_of ds1 = value_of ds2) as [-> Htail] by lia.
    f_equal. apply IH; try assumption.
    + unfold trimmed in *. destruct ds1; [done|]. by rewrite last_cons_cons in T1.
    + unfold trimmed in *. destruct ds2; [done|]. by rewrite last_cons_cons in T2.
Qed.

Lemma lower_alnum_digits l :
  forallb is_lower_alnum l = true →
  ∃ ds, Forall is_digit36 ds ∧ l = map digit_char ds.
Proof.
  induction l as [|c l IH]; intros Hall; [by exists []|].
  simpl in Hall. apply andb_prop in Hall as [Hc Hall].
  destruct (lower_alnum_digit_char c Hc) as (d & Hd & ->).
  destruct (IH Hall) as (ds & Hds & ->).
  exists (d :: ds). split; [by constructor|reflexivity].
Qed.

Lemma digit_char_zero d : is_digit36 d → digit_char d = "0"%char → d = 0.
Proof.
  intros Hd Hchar. pose proof (digit_value_digit_char d Hd) as Hval.
  rewrite Hchar in Hval. by injection Hval.
Qed.

Lemma id_to_ec2_id_digits n :
  0 < n →
  ∃ ds, id_to_ec2_id n = Some ("i-" +:+ string_of_list_ascii (rev (map digit_char ds)))
        ∧ Forall is_digit36 ds ∧ value_of ds = n ∧ ds ≠ [] ∧ trimmed ds.
Proof.
  intros Hn. unfold id_to_ec2_id, id_to_ec2_id_fuel.
  destruct (loop_returns (enough_fuel n) n [] ltac:(lia) ltac:(lia)) as [out Hout].
  rewrite Hout. apply loop_digits_positive in Hout as (ds & -> & Hrest); [|assumption].
  exists ds. split; [reflexivity|assumption].
Qed.

(** X1: What [id_to_ec2_id] writes for a positive id is in canonical form. *)
Theorem id_to_ec2_id_canonical (n : Z) :
  0 < n → ∃ ec2_id, id_to_ec2_id n = Some ec2_id ∧ canonical_ec2_id ec2_id.
Proof.
  intros Hn. destruct (id_to_ec2_id_digits n Hn) as (ds & -> & Hds & _ & Hne & Htrim).
  eexists; split; [reflexivity|].
  destruct ds as [|d ds _] using rev_ind; [done|].
  apply Forall_app in Hds as [Hds Hd]. inversion Hd as [|? ? Hd' _]; subst.
  rewrite map_app, rev_app_distr. simpl rev. simpl app.
  change ("i-" +:+ string_of_list_ascii (?c :: ?l))
    with (String "i" (String "-" (String c (string_of_list_ascii l)))).
  unfold canonical_ec2_id, matches_ec2_id. split.
  - simpl. rewrite digit_char_lower_alnum by assumption. simpl.
    rewrite list_ascii_of_string_of_list_ascii.
    apply forallb_forall. intros c Hc. apply in_rev, in_map_iff in Hc as (x & <- & Hx).
    apply digit_char_lower_alnum. rewrite Forall_forall in Hds.
    by apply Hds, list_elem_of_In.
  - simpl. intros [= Hzero]. apply digit_char_zero in Hzero; [|assumption].
    apply Htrim. rewrite last_snoc. by f_equal.
Qed.

(** X2: Decoding an external id in canonical form and encoding the result
    gives the external id back. *)
Theorem encode_decode_canonical (ec2_id : string) :
  canonical_ec2_id ec2_id →
  ∃ n, 0 < n ∧ ec2_id_to_id ec2_id = Ok n ∧ id_to_ec2_id n = Some ec2_id.
Proof.
  intros [Hmatch Hfirst]. unfold matches_ec2_id in Hmatch.
  destruct ec2_id as [|c1 [|c2 rest]]; try discriminate;
    try (destruct c1 as [[] [] [] [] [] [] [] []]; discriminate).
  destruct (Ascii.eqb_spec c1 "i") as [->|Hc1];
    [|destruct c1 as [[] [] [] [] [] [] [] []]; first [discriminate|congruence]].
  destruct (Ascii.eqb_spec c2 "-") as [->|Hc2];
    [|destruct c2 as [[] [] [] [] [] [] [] []]; first [discriminate|congruence]].
  apply andb_prop in Hmatch as [Hne Hall].
  destruct (lower_alnum_digits _ Hall) as (msf & Hmsf & Hchars).
  assert (Hrest : rest = string_of_list_ascii (map digit_char msf))
    by (by rewrite <- Hchars, string_of_list_ascii_of_string).
  subst rest. clear Hchars Hall.
  destruct msf as [|d0 msf]; [discriminate|].
  inversion Hmsf as [|? ? Hd0 Hmsf']; subst.
  assert (Hd0' : d0 ≠ 0).
  { intros ->. apply Hfirst. reflexivity. }
  set (lsf := rev (d0 :: msf)).
  assert (Hlsf : Forall is_digit36 lsf) by (by apply Forall_rev).
  assert (Htrim : trimmed lsf).
  { unfold trimmed, lsf. simpl. rewrite last_snoc. congruence. }
  assert (Hpos : 0 < value_of lsf).
  { pose proof (value_of_nonneg lsf Hlsf).
    destruct (Z.eq_dec (value_of lsf) 0) as [Hzero|]; [|lia].
    pose proof (value_of_zero lsf Hlsf Hzero) as Hall.
    unfold lsf in Hall. simpl in Hall. apply Forall_app in Hall as [_ Hd].
    by inversion Hd. }
  exists (value_of lsf). split; [assumption|]. split.
  - unfold ec2_id_to_id. cbn [slice_from].
    rewrite int_of_digits by (assumption || discriminate).
    by rewrite <- (rev_involutive (d0 :: msf)), fold_left_rev_value.
  - destruct (id_to_ec2_id_digits _ Hpos) as (ds & -> & Hds & Hval & _ & Hds').
    rewrite (value_of_injective ds lsf Hds Hlsf Hds' Htrim Hval).
    unfold lsf. by rewrite <- map_rev, rev_involutive.
Qed.

(** X3: [id_to_ec2_id] gives two different ids that are not negative two
    different external ids. *)
Theorem id_to_ec2_id_injective (n m : Z) :
  0 ≤ n → 0 ≤ m → n ≠ m → id_to_ec2_id n ≠ id_to_ec2_id m.
Proof.
  assert (Hzero : ∀ k, 0 < k → id_to_ec2_id k ≠ id_to_ec2_id 0).
  { intros k Hk Heq. destruct (decode_encode_positive k Hk) as (s & Hs & Hback).
    rewrite Heq in Hs. injection Hs as <-. discriminate Hback. }
  intros Hn Hm Hne Heq.
  destruct (Z.eq_dec n 0) as [->|]; destruct (Z.eq_dec m 0) as [->|]; try done.
  - apply (Hzero m); [lia|done].
  - apply (Hzero n); [lia|done].
  - destruct (decode_encode_positive n ltac:(lia)) as (s & Hs & Hback).
    destruct (decode_encode_positive m ltac:(lia)) as (s' & Hs' & Hback').
    rewrite Hs, Hs' in Heq. injection Heq as ->. congruence.
Qed.

End CodecMore.

Lemma id_to_ec2_id_canonical_witness :
  ∃ ec2_id, id_to_ec2_id 1295 = Some ec2_id ∧ canonical_ec2_id ec2_id.
Proof. apply (id_to_ec2_id_canonical 1295). lia. Defined.

Lemma encode_decode_canonical_witness :
  ∃ n, 0 < n ∧ ec2_id_to_id "i-zz" = Ok n ∧ id_to_ec2_id n = Some "i-zz".
Proof.
  apply (encode_decode_canonical "i-zz"). split; [reflexivity|discriminate].
Defined.

Lemma id_to_ec2_id_injective_witness : id_to_ec2_id 35 ≠ id_to_ec2_id 36.
Proof. apply (id_to_ec2_id_injective 35 36); lia. Defined.

Lemma id_to_ec2_id_negative_witness : id_to_ec2_id_fuel 1000 (-7) = None.
Proof. apply (id_to_ec2_id_negative (-7) 1000). lia. Defined.

Section KeyPairsMore.

Context `{Collaborators} `{Services}.

(** X5: Creating a key pair twice under one name: the first call stores it,
    the second fails with Duplicate, and key material has been generated
    once in all. *)
Theorem create_key_pair_twice
    (context : RequestContext) (key_name : string) (w : World) :
  key_pairs w !! (ctx_user_id context, key_name) = None →
  ∃ item w1 w2,
    create_key_pair context key_name w = (Ok item, w1)
    ∧ create_key_pair context key_name w1
      = (Raise (Duplicate ("The key_pair " +:+ key_name +:+ " already exists")), w2)
    ∧ key_pairs w2 = key_pairs w1
    ∧ keys_generated w2 = S (keys_generated w).
Proof.
  intros Hfree.
  destruct (create_key_pair_fresh context key_name w Hfree)
    as (w1 & private & public & print & _ & Hcreate & Hgen & Hstored).
  eexists _, w1, _. split; [exact Hcreate|].
  unfold create_key_pair, _gen_key, db.key_pair_get.
  unfold bind, try_except, raise, LOG_audit. cbn. rewrite Hstored. cbn.
  repeat split. exact Hgen.
Qed.

(** X6: Creating a key pair, whether it fails or not, changes nothing that
    is stored under another (user, name). *)
Theorem create_key_pair_others
    (context : RequestContext) (key_name : string) (w : World) (other : string * string) :
  other ≠ (ctx_user_id context, key_name) →
  key_pairs (snd (create_key_pair context key_name w)) !! other = key_pairs w !! other.
Proof.
  intros Hother.
  unfold create_key_pair, _gen_key, db.key_pair_get, crypto_generate_key_pair.
  unfold bind, try_except, raise, ret, LOG_audit. cbn.
  destruct (key_pairs w !! (ctx_user_id context, key_name)); cbn; [reflexivity|].
  destruct (crypto_material (keys_generated w)) as [[private public] print]. cbn.
  by rewrite lookup_insert_ne.
Qed.

(** X7: Deleting the key pair just created gives the stored key pairs back
    as they were. *)
Theorem delete_after_create
    (context : RequestContext) (key_name : string) (w : World) :
  key_pairs w !! (ctx_user_id context, key_name) = None →
  fst (delete_key_pair context key_name (snd (create_key_pair context key_name w)))
  = Ok true
  ∧ key_pairs (snd (delete_key_pair context key_name
                      (snd (create_key_pair context key_name w))))
    = key_pairs w.
Proof.
  intros Hfree.
  unfold delete_key_pair, db.key_pair_destroy.
  unfold create_key_pair, _gen_key, db.key_pair_get, db.key_pair_create,
    crypto_generate_key_pair.
  unfold bind, try_except, raise, ret, LOG_audit. cbn. rewrite Hfree. cbn.
  destruct (crypto_material (keys_generated w)) as [[private public] print]. cbn.
  rewrite lookup_insert_eq. cbn. split; [reflexivity|].
  rewrite delete_insert_eq. by apply delete_id.
Qed.

(** X8: [describe_key_pairs] lists exactly the key pairs stored for the
    caller, those of the names asked for when names are given, without
    the ones whose name ends in the VPN suffix unless the caller is an
    administrator; it never raises and writes nothing. *)
Theorem describe_key_pairs_lists
    (context : RequestContext) (key_name : option (list string)) (w : World) :
  ∃ entries,
    describe_key_pairs context key_name w = (Ok entries, w)
    ∧ (∀ e,
         In e entries ↔
         ∃ key kp,
           key_pairs w !! key = Some kp
           ∧ kp_user_id kp = ctx_user_id context
           ∧ match key_name with
             | Some names => In (kp_name kp) names
             | None => True
             end
           ∧ (ctx_user_is_admin context = true
              ∨ endswith (kp_name kp) FLAGS_vpn_key_suffix = false)
           ∧ e = {| entry_keyName := kp_name kp;
                    entry_keyFingerprint := kp_fingerprint kp |})
    ∧ (ctx_user_is_admin context = false →
       ∀ e, In e entries → endswith (entry_keyName e) FLAGS_vpn_key_suffix = false).
Proof.
  eexists. split; [reflexivity|].
  assert (Hspec : ∀ e,
    In e (map (λ key_pair, {| entry_keyName := kp_name key_pair;
                              entry_keyFingerprint := kp_fingerprint key_pair |})
           (List.filter (λ key_pair,
                           ctx_user_is_admin context
                           || negb (endswith (kp_name key_pair) FLAGS_vpn_key_suffix))
              match key_name with
              | Some key_name0 =>
                  List.filter (λ x, existsb (String.eqb (kp_name x)) key_name0)
                    (List.filter (λ kp, String.eqb (kp_user_id kp) (ctx_user_id context))
                       (map snd (map_to_list (key_pairs w))))
              | None =>
                  List.filter (λ kp, String.eqb (kp_user_id kp) (ctx_user_id context))
                    (map snd (map_to_list (key_pairs w)))
              end)) ↔
    ∃ key kp,
      key_pairs w !! key = Some kp
      ∧ kp_user_id kp = ctx_user_id context
      ∧ match key_name with
        | Some names => In (kp_name kp) names
        | None => True
        end
      ∧ (ctx_user_is_admin context = true
         ∨ endswith (kp_name kp) FLAGS_vpn_key_suffix = false)
      ∧ e = {| entry_keyName := kp_name kp;
               entry_keyFingerprint := kp_fingerprint kp |}).
  { intros e. rewrite in_map_iff. split.
    - intros (kp & <- & Hin). apply List.filter_In in Hin as [Hin Hvpn].
      apply orb_prop in Hvpn. rewrite negb_true_iff in Hvpn.
      assert (Hstored : In kp (map snd (map_to_list (key_pairs w)))
                        ∧ kp_user_id kp = ctx_user_id context
                        ∧ match key_name with
                          | Some names => In (kp_name kp) names
                          | None => True
                          end).
      { destruct key_name as [names|].
        - apply List.filter_In in Hin as [Hin Hname].
          apply List.filter_In in Hin as [Hin Huser].
          apply String.eqb_eq in Huser.
          apply existsb_exists in Hname as (x & Hx & Heq).
          apply String.eqb_eq in Heq. subst x. auto.
        - apply List.filter_In in Hin as [Hin Huser].
          apply String.eqb_eq in Huser. auto. }
      destruct Hstored as (Hsnd & Huser & Hname).
      apply in_map_iff in Hsnd as ([key kp'] & Heq & Hlist). simpl in Heq. subst kp'.
      apply list_elem_of_In, elem_of_map_to_list in Hlist.
      exists key, kp. auto.
    - intros (key & kp & Hstored & Huser & Hname & Hvpn & ->).
      exists kp. split; [reflexivity|].
      apply List.filter_In. split.
      + assert (Hin : In kp (List.filter
                               (λ kp, String.eqb (kp_user_id kp) (ctx_user_id context))
                               (map snd (map_to_list (key_pairs w))))).
        { apply List.filter_In. split; [|by apply String.eqb_eq].
          apply in_map_iff. exists (key, kp). split; [reflexivity|].
          by apply list_elem_of_In, elem_of_map_to_list. }
        destruct key_name as [names|]; [|exact Hin].
        apply List.filter_In. split; [exact Hin|].
        apply existsb_exists. exists (kp_name kp). split; [assumption|].
        apply String.eqb_refl.
      + destruct Hvpn as [-> | ->]; [reflexivity|]. apply orb_true_r. }
  split; [exact Hspec|].
  intros Hadmin e He. apply Hspec in He as (key & kp & _ & _ & _ & Hvpn & ->).
  simpl. destruct Hvpn as [Hvpn|Hvpn]; [congruence|assumption].
Qed.

End KeyPairsMore.

Section SourceProject.

Lemma append_cons (x : ascii) (a b : string) : String x a +:+ b = String x (a +:+ b).
Proof. reflexivity. Qed.

Lemma append_assoc (a b c : string) : (a +:+ b) +:+ c = a +:+ (b +:+ c).
Proof.
  induction a as [|x a IH]; [reflexivity|]. by rewrite !append_cons, IH.
Qed.

Lemma append_empty_r (a : string) : a +:+ "" = a.
Proof.
  induction a as [|x a IH]; [reflexivity|]. by rewrite append_cons, IH.
Qed.

Lemma split_on_no_sep sep s :
  ∀ cur, ¬ In sep (list_ascii_of_string s) → split_on sep cur s = [cur +:+ s].
Proof.
  induction s as [|c s IH]; intros cur Hsep; simpl.
  - by rewrite append_empty_r.
  - destruct (Ascii.eqb_spec c sep) as [->|Hc]; [exfalso; apply Hsep; by left|].
    rewrite IH by (intros Hin; apply Hsep; by right).
    by rewrite append_assoc.
Qed.

Lemma split_on_first sep s rest :
  ∀ cur, ¬ In sep (list_ascii_of_string s) →
         split_on sep cur (s +:+ String sep rest)
         = (cur +:+ s) :: split_on sep "" rest.
Proof.
  induction s as [|c s IH]; intros cur Hsep; simpl.
  - rewrite Ascii.eqb_refl. by rewrite append_empty_r.
  - destruct (Ascii.eqb_spec c sep) as [->|Hc]; [exfalso; apply Hsep; by left|].
    rewrite IH by (intros Hin; apply Hsep; by right).
    by rewrite append_assoc.
Qed.

Lemma split_on_nonempty sep s : ∀ cur, split_on sep cur s ≠ [].
Proof.
  induction s as [|c s IH]; intros cur; simpl; [discriminate|].
  destruct (Ascii.eqb c sep); [discriminate|apply IH].
Qed.

Lemma truthy_nonempty s : s ≠ "" → truthy (PStr s) = true.
Proof. intros Hs. simpl. by destruct s. Qed.

(** X9: [_get_source_project_id]: with no owner given the project is the
    caller's; an owner "user:project" gives the project; an owner with
    no colon is itself the project; and of an owner with three parts or
    more it is the first part that is taken. *)
Theorem source_project_id (context : RequestContext) :
  (∀ owner, truthy owner = false →
            _get_source_project_id context owner = Ok (PStr (ctx_project_id context)))
  ∧ (∀ user project,
       no_colon user → no_colon project →
       _get_source_project_id context (PStr (user +:+ ":" +:+ project))
       = Ok (PStr project))
  ∧ (∀ name,
       name ≠ "" → no_colon name →
       _get_source_project_id context (PStr name) = Ok (PStr name))
  ∧ (∀ first second rest,
       no_colon first → no_colon second →
       _get_source_project_id context
         (PStr (first +:+ ":" +:+ second +:+ ":" +:+ rest))
       = Ok (PStr first)).
Proof.
  split; [|split; [|split]].
  - intros owner Howner. unfold _get_source_project_id. by rewrite Howner.
  - intros user project Huser Hproject. unfold _get_source_project_id.
    rewrite truthy_nonempty by (by destruct user).
    unfold split. change (user +:+ ":" +:+ project) with (user +:+ String ":" project).
    rewrite split_on_first, split_on_no_sep by assumption. reflexivity.
  - intros name Hname Hcolon. unfold _get_source_project_id.
    rewrite truthy_nonempty by assumption.
    unfold split. rewrite split_on_no_sep by assumption. reflexivity.
  - intros first second rest Hfirst Hsecond. unfold _get_source_project_id.
    rewrite truthy_nonempty by (by destruct first).
    unfold split.
    change (first +:+ ":" +:+ second +:+ ":" +:+ rest)
      with (first +:+ String ":" (second +:+ String ":" rest)).
    rewrite !split_on_first by assumption. simpl.
    pose proof (split_on_nonempty ":" rest "") as Hrest.
    by destruct (split_on ":" "" rest).
Qed.

End SourceProject.

Lemma source_project_id_witness :
  _get_source_project_id Sample.context (PStr "") = Ok (PStr "proj")
  ∧ _get_source_project_id Sample.context (PStr "bob:other") = Ok (PStr "other")
  ∧ _get_source_project_id Sample.context (PStr "other") = Ok (PStr "other")
  ∧ _get_source_project_id Sample.context (PStr "a:b:c") = Ok (PStr "a").
Proof.
  destruct (source_project_id Sample.context) as (Hnone & Hpair & Hone & Hmany).
  split; [|split; [|split]].
  - apply Hnone. reflexivity.
  - apply (Hpair "bob" "other"); unfold no_colon; simpl; intuition discriminate.
  - apply (Hone "other"); [discriminate|]. unfold no_colon; simpl; intuition discriminate.
  - apply (Hmany "a" "b" "c"); unfold no_colon; simpl; intuition discriminate.
Defined.

Section CanonicaliserMore.

Context `{Collaborators}.

Lemma valid_protocol_in p :
  negb (existsb (String.eqb (upper p)) valid_protocols) = false →
  In (upper p) valid_protocols.
Proof.
  intros Hp. apply negb_false_iff, existsb_exists in Hp as (x & Hx & Heq).
  apply String.eqb_eq in Heq. by subst x.
Qed.

Lemma port_range_ok f t :
  (Z.min f t <? -1) || (Z.max f t >? 65535) = false →
  -1 ≤ f ≤ 65535 ∧ -1 ≤ t ≤ 65535.
Proof.
  intros Hr. apply orb_false_elim in Hr as [Hlo Hhi].
  apply Z.ltb_ge in Hlo. rewrite Z.gtb_ltb in Hhi. apply Z.ltb_ge in Hhi. lia.
Qed.

(** The shapes of a value set that canonicalisation returns. *)
Lemma canonicalise_shape
    (context : RequestContext) (args : RuleArgs) (w w' : World)
    (values : gmap string pyval) :
  _revoke_rule_args_to_dict context args w = (Ok (Some values), w') →
  let with_ports (base : gmap string pyval) :=
    ∃ f t,
      values = <["to_port" := PInt t]>
               (<["from_port" := PInt f]>
               (<["protocol" := PStr (py_str (ip_protocol args))]> base))
      ∧ (-1 ≤ f ≤ 65535 ∧ -1 ≤ t ≤ 65535)
      ∧ In (upper (py_str (ip_protocol args))) valid_protocols in
  (∃ g, values = {[ "group_id" := PInt g ]})
  ∨ (∃ g, with_ports {[ "group_id" := PInt g ]})
  ∨ (∃ c, with_ports {[ "cidr" := c ]}).
Proof.
  unfold _revoke_rule_args_to_dict, db.security_group_get_by_name.
  unfold bind, ret, raise, lift.
  repeat (case_match; simpl in *; simplify_eq; try done); intros; simplify_eq;
    first [ left; eexists; reflexivity
          | right; left; eexists _, _, _; split; [reflexivity|];
            split; [by apply port_range_ok | by apply valid_protocol_in]
          | right; right; eexists _, _, _; split; [reflexivity|];
            split; [by apply port_range_ok | by apply valid_protocol_in] ].
Qed.

(** X10: Every value set that canonicalisation returns holds exactly one of
    [cidr] and [group_id], and no key beyond these two, [protocol],
    [from_port] and [to_port]; one that holds [cidr] holds the protocol
    and both ports. *)
Theorem canonical_value_set
    (context : RequestContext) (args : RuleArgs) (w w' : World)
    (values : gmap string pyval) :
  _revoke_rule_args_to_dict context args w = (Ok (Some values), w') →
  (is_Some (values !! "cidr") ↔ values !! "group_id" = None)
  ∧ (is_Some (values !! "cidr") →
     is_Some (values !! "protocol") ∧ is_Some (values !! "from_port")
     ∧ is_Some (values !! "to_port"))
  ∧ (∀ key, is_Some (values !! key) →
            In key ["cidr"; "group_id"; "protocol"; "from_port"; "to_port"]).
Proof.
  intros Hrun.
  assert (Hkeys : ∀ (m : gmap string pyval) k v key,
             is_Some (<[k := v]> m !! key) → key = k ∨ is_Some (m !! key)).
  { intros m k v key Hsome. destruct (decide (k = key)) as [<-|Hne]; [by left|].
    rewrite lookup_insert_ne in Hsome by assumption. by right. }
  assert (Hone : ∀ k (v : pyval) key,
             is_Some (({[ k := v ]} : gmap string pyval) !! key) → key = k).
  { intros k v key Hsome. destruct (decide (k = key)) as [<-|Hne]; [reflexivity|].
    rewrite lookup_singleton_ne in Hsome by assumption. by destruct Hsome. }
  destruct (canonicalise_shape _ _ _ _ _ Hrun)
    as [(g & ->) | [(g & f & t & -> & _) | (c & f & t & -> & _)]].
  - split; [|split].
    + simplify_map_eq. split; [by intros [? ?]|discriminate].
    + simplify_map_eq. by intros [? ?].
    + intros key Hsome. apply Hone in Hsome as ->. simpl. tauto.
  - split; [|split].
    + simplify_map_eq. split; [by intros [? ?]|discriminate].
    + simplify_map_eq. by intros [? ?].
    + intros key Hsome.
      apply Hkeys in Hsome as [-> | Hsome]; [simpl; tauto|].
      apply Hkeys in Hsome as [-> | Hsome]; [simpl; tauto|].
      apply Hkeys in Hsome as [-> | Hsome]; [simpl; tauto|].
      apply Hone in Hsome as ->. simpl; tauto.
  - split; [|split].
    + simplify_map_eq. split; [done|eauto].
    + intros _. simplify_map_eq. eauto.
    + intros key Hsome.
      apply Hkeys in Hsome as [-> | Hsome]; [simpl; tauto|].
      apply Hkeys in Hsome as [-> | Hsome]; [simpl; tauto|].
      apply Hkeys in Hsome as [-> | Hsome]; [simpl; tauto|].
      apply Hone in Hsome as ->. simpl; tauto.
Qed.

(** X11: Every value set returned with ports holds them as integers between
    -1 and 65535, and its protocol, kept as it was written, is TCP, UDP
    or ICMP once in upper case. *)
Theorem canonical_ports_in_range
    (context : RequestContext) (args : RuleArgs) (w w' : World)
    (values : gmap string pyval) :
  _revoke_rule_args_to_dict context args w = (Ok (Some values), w') →
  is_Some (values !! "from_port") →
  ∃ f t,
    values !! "from_port" = Some (PInt f) ∧ values !! "to_port" = Some (PInt t)
    ∧ -1 ≤ f ≤ 65535 ∧ -1 ≤ t ≤ 65535
    ∧ values !! "protocol" = Some (PStr (py_str (ip_protocol args)))
    ∧ In (upper (py_str (ip_protocol args))) valid_protocols.
Proof.
  intros Hrun Hsome.
  destruct (canonicalise_shape _ _ _ _ _ Hrun)
    as [(g & ->) | [(g & f & t & -> & [Hf Ht] & Hvalid)
                   | (c & f & t & -> & [Hf Ht] & Hvalid)]].
  - simplify_map_eq. by destruct Hsome.
  - exists f, t. simplify_map_eq. auto 10.
  - exists f, t. simplify_map_eq. auto 10.
Qed.

End CanonicaliserMore.

Section AuthorizeThenRevoke.

Context `{Collaborators}.
















End AuthorizeThenRevoke.

Section SecurityGroupFormat.

Context `{Collaborators} `{Services}.

Lemma format_rules_shows context rules :
  ∀ w permissions w',
    format_rules context rules w = (Ok permissions, w') →
    w' = w ∧ Forall2 shows rules permissions.
Proof.
  induction rules as [|rule rules IH]; intros w permissions w' Hrun.
  - injection Hrun as <- <-. split; [reflexivity|constructor].
  - cbn [format_rules] in Hrun. unfold bind at 1 in Hrun.
    destruct (truthy (rule_group_id rule)) eqn:Hgroup.
    + unfold bind at 1, db_more.security_group_get in Hrun.
      destruct (find _ (security_groups w)) as [source|]; [|discriminate].
      unfold ret at 1 in Hrun. unfold bind in Hrun.
      destruct (format_rules context rules w) as [[rest|e] w''] eqn:Hrest;
        [|discriminate].
      apply IH in Hrest as [-> Hrest]. injection Hrun as <- <-.
      split; [reflexivity|]. constructor; [|assumption].
      unfold shows. rewrite Hgroup. simpl. auto.
    + unfold ret at 1 in Hrun. unfold bind in Hrun.
      destruct (format_rules context rules w) as [[rest|e] w''] eqn:Hrest;
        [|discriminate].
      apply IH in Hrest as [-> Hrest]. injection Hrun as <- <-.
      split; [reflexivity|]. constructor; [|assumption].
      unfold shows. rewrite Hgroup. simpl. auto.
Qed.

(** X14: A formatted security group has one permission entry for each rule of
    the group, in the order of the rules; each entry shows the protocol
    and ports of its rule and either one source group or one address
    range, never both; formatting writes nothing. *)
Theorem format_security_group_entries
    (context : RequestContext) (group : SecurityGroup) (w w' : World)
    (item : SecurityGroupItem) :
  _format_security_group context group w = (Ok item, w') →
  w' = w
  ∧ groupName item = sg_name group
  ∧ group_ownerId item = sg_project_id group
  ∧ Forall2 shows (db.rules_of group w) (ipPermissions item)
  ∧ Forall (λ p, (length (groups p) + length (ipRanges p))%nat = 1%nat)
           (ipPermissions item).
Proof.
  unfold _format_security_group, bind, get_world. intros Hrun.
  destruct (format_rules context (db.rules_of group w) w) as [[permissions|e] w'']
    eqn:Hrules; [|discriminate].
  apply format_rules_shows in Hrules as [-> Hshows].
  injection Hrun as <- <-. simpl. repeat split; try assumption.
  induction Hshows as [|rule p rules ps (_ & _ & _ & Hp) _ IH]; constructor;
    [|assumption].
  destruct (truthy (rule_group_id rule)); destruct Hp as [-> Hp].
  - simpl. lia.
  - rewrite Hp. reflexivity.
Qed.

End SecurityGroupFormat.

Section Zones.

Context `{Collaborators} `{Services}.

Lemma existsb_eqb_In (z : string) (l : list string) :
  existsb (String.eqb z) l = true ↔ In z l.
Proof.
  rewrite existsb_exists. split.
  - intros (x & Hx & Heq). apply String.eqb_eq in Heq. by subst.
  - intros Hin. exists z. split; [assumption|apply String.eqb_refl].
Qed.

Lemma append_new_In zones :
  ∀ seen z, In z (append_new zones seen) ↔ In z seen ∨ In z zones.
Proof.
  induction zones as [|zone zones IH]; intros seen z; simpl; [tauto|].
  destruct (existsb (String.eqb zone) seen) eqn:Hseen.
  - apply existsb_eqb_In in Hseen. rewrite IH. intuition congruence.
  - rewrite IH, in_app_iff. simpl. tauto.
Qed.

Lemma append_new_NoDup zones :
  ∀ seen, NoDup seen → NoDup (append_new zones seen).
Proof.
  induction zones as [|zone zones IH]; intros seen Hseen; simpl; [assumption|].
  destruct (existsb (String.eqb zone) seen) eqn:Hin; [by apply IH|].
  apply IH. apply NoDup_app. split; [assumption|]. split.
  - intros x Hx Hx'. apply list_elem_of_In in Hx.
    apply list_elem_of_In in Hx'. destruct Hx' as [<-|[]].
    apply existsb_eqb_In in Hx. congruence.
  - apply NoDup_singleton.
Qed.

(** X15: [_describe_availability_zones] names every zone once: "available"
    the zones that have an enabled service, "not available" the zones
    that have a disabled service and no enabled one. *)
Theorem describe_availability_zones_once
    (context : RequestContext) (w w1 w2 : World) (enabled disabled : list Service) :
  db_service_get_all context false w = (Ok enabled, w1) →
  db_service_get_all context true w1 = (Ok disabled, w2) →
  ∃ zones,
    _describe_availability_zones context w = (Ok zones, w2)
    ∧ NoDup (map zoneName zones)
    ∧ (∀ z, In {| zoneName := z; zoneState := "available" |} zones
            ↔ In z (map svc_availability_zone enabled))
    ∧ (∀ z, In {| zoneName := z; zoneState := "not available" |} zones
            ↔ In z (map svc_availability_zone disabled)
              ∧ ¬ In z (map svc_availability_zone enabled)).
Proof.
  intros Henabled Hdisabled.
  unfold _describe_availability_zones, bind, ret. rewrite Henabled, Hdisabled.
  set (available := append_new (map svc_availability_zone enabled) []).
  set (unavailable :=
         append_new
           (map svc_availability_zone
              (List.filter
                 (λ service,
                    negb (existsb (String.eqb (svc_availability_zone service)) available))
                 disabled)) []).
  assert (Havail : ∀ z, In z available ↔ In z (map svc_availability_zone enabled)).
  { intros z. unfold available. rewrite append_new_In. simpl. tauto. }
  assert (Hunavail : ∀ z, In z unavailable
                          ↔ In z (map svc_availability_zone disabled)
                            ∧ ¬ In z (map svc_availability_zone enabled)).
  { intros z. rewrite <- Havail. unfold unavailable. rewrite append_new_In. simpl.
    split.
    - intros [[]|Hin]. apply in_map_iff in Hin as (s & <- & Hs).
      apply List.filter_In in Hs as [Hs Hnot].
      apply negb_true_iff in Hnot. split; [by apply in_map|].
      intros Hin. apply existsb_eqb_In in Hin. congruence.
    - intros [Hin Hnot]. right. apply in_map_iff in Hin as (s & <- & Hs).
      apply in_map_iff.
      exists s. split; [reflexivity|]. apply List.filter_In. split; [assumption|].
      apply negb_true_iff. destruct (existsb _ available) eqn:Hex; [|reflexivity].
      by apply existsb_eqb_In in Hex. }
  eexists. split; [reflexivity|]. split; [|split].
  - rewrite map_app, !map_map. simpl. rewrite !map_id.
    apply NoDup_app. split; [apply append_new_NoDup, NoDup_nil_2|]. split.
    + intros z Hz Hz'. apply list_elem_of_In in Hz. apply list_elem_of_In in Hz'.
      apply Hunavail in Hz' as [_ Hnot]. by apply Hnot, Havail.
    + apply append_new_NoDup, NoDup_nil_2.
  - intros z. rewrite <- Havail, in_app_iff, !in_map_iff. split.
    + intros [(x & [= <-] & Hx)|(x & [=] & _)]. assumption.
    + intros Hz. left. by exists z.
  - intros z. rewrite <- Hunavail, in_app_iff, !in_map_iff. split.
    + intros [(x & [=] & _)|(x & [= <-] & Hx)]. assumption.
    + intros Hz. right. by exists z.
Qed.

End Zones.

Section Updates.

Context `{Collaborators} `{Services}.

Lemma nonempty_changes (kwargs : gmap string pyval) :
  nonempty (collect_changes updatable_fields kwargs ∅) = true
  ↔ is_Some (kwargs !! "display_name") ∨ is_Some (kwargs !! "display_description").
Proof.
  unfold nonempty, updatable_fields. cbn.
  destruct (kwargs !! "display_name") as [n|];
    destruct (kwargs !! "display_description") as [d|]; cbn.
  - split; [eauto|]. intros _. apply negb_true_iff, bool_decide_eq_false.
    apply insert_non_empty.
  - split; [eauto|]. intros _. apply negb_true_iff, bool_decide_eq_false.
    apply insert_non_empty.
  - split; [eauto|]. intros _. apply negb_true_iff, bool_decide_eq_false.
    apply insert_non_empty.
  - rewrite bool_decide_eq_true_2 by reflexivity. cbn.
    split; [discriminate|]. intros [[? ?]|[? ?]]; discriminate.
Qed.

(** X16: [update_volume]: with neither [display_name] nor
    [display_description] among the arguments the volume manager is not
    called and the call returns [True]; with one of them it is called,
    with all the arguments given and not only these two. *)
Theorem update_volume_calls
    (context : RequestContext) (volume_id : pyval) (kwargs : gmap string pyval)
    (w : World) :
  (kwargs !! "display_name" = None → kwargs !! "display_description" = None →
   update_volume context volume_id kwargs w = (Ok true, w))
  ∧ (is_Some (kwargs !! "display_name") ∨ is_Some (kwargs !! "display_description") →
     update_volume context volume_id kwargs w
     = bind (volume_update context volume_id kwargs) (λ _, ret true) w).
Proof.
  unfold update_volume. split.
  - intros Hname Hdesc.
    destruct (nonempty _) eqn:Hchanges; [|reflexivity].
    apply nonempty_changes in Hchanges as [[? ?]|[? ?]]; congruence.
  - intros Hgiven. apply nonempty_changes in Hgiven. by rewrite Hgiven.
Qed.

(** X17: [update_instance]: with neither field among the arguments the call
    returns [True] without even decoding the external id, well formed or
    not; with one of them, an external id that does not decode makes the
    call fail before the compute manager is called. *)
Theorem update_instance_calls
    (context : RequestContext) (ec2_id : string) (kwargs : gmap string pyval)
    (w : World) :
  (kwargs !! "display_name" = None → kwargs !! "display_description" = None →
   update_instance context ec2_id kwargs w = (Ok true, w))
  ∧ (is_Some (kwargs !! "display_name") ∨ is_Some (kwargs !! "display_description") →
     (∀ e, ec2_id_to_id ec2_id = Raise e →
           update_instance context ec2_id kwargs w = (Raise e, w))
     ∧ (∀ id, ec2_id_to_id ec2_id = Ok id →
              update_instance context ec2_id kwargs w
              = bind (compute_update context id kwargs) (λ _, ret true) w)).
Proof.
  unfold update_instance. split.
  - intros Hname Hdesc.
    destruct (nonempty _) eqn:Hchanges; [|reflexivity].
    apply nonempty_changes in Hchanges as [[? ?]|[? ?]]; congruence.
  - intros Hgiven. apply nonempty_changes in Hgiven. rewrite Hgiven.
    split; intros ? Hid; unfold bind, lift; by rewrite Hid.
Qed.

End Updates.

Section Terminate.

Context `{Collaborators} `{Services}.

Lemma terminate_each_prefix context good :
  ∀ decoded rest w units w',
    Forall2 (λ ec2_id id, ec2_id_to_id ec2_id = Ok id) good decoded →
    for_each (compute_delete context) decoded w = (Ok units, w') →
    terminate_each context (good ++ rest)%list w = terminate_each context rest w'.
Proof.
  induction good as [|ec2_id good IH]; intros decoded rest w units w' Hdec Hrun.
  - inversion Hdec; subst. by injection Hrun as <- <-.
  - inversion Hdec as [|? id ? decoded' Hid Hdec']; subst.
    cbn in Hrun |- *. unfold bind, lift in *. rewrite Hid.
    destruct (compute_delete context id w) as [[[]|e] w1]; [|discriminate].
    destruct (for_each (compute_delete context) decoded' w1) as [[units'|e] w2]
      eqn:Hrest; [|discriminate].
    injection Hrun as <- <-. by eapply IH.
Qed.

(** X18: [terminate_instances] deletes the instances one by one, in the order
    given: when every id decodes and every deletion succeeds it returns
    [True]; at the first id that does not decode it fails, the deletions
    made before it stay made and the ids after it are not looked at. *)
Theorem terminate_instances_one_by_one
    (context : RequestContext) (good : list string) (decoded : list Z)
    (w w' : World) (units : list unit) :
  Forall2 (λ ec2_id id, ec2_id_to_id ec2_id = Ok id) good decoded →
  for_each (compute_delete context) decoded w = (Ok units, w') →
  terminate_instances context good w = (Ok true, w')
  ∧ (∀ bad e rest,
       ec2_id_to_id bad = Raise e →
       terminate_instances context (good ++ bad :: rest)%list w = (Raise e, w')).
Proof.
  intros Hdec Hrun. split.
  - unfold terminate_instances, bind.
    rewrite <- (app_nil_r good), (terminate_each_prefix _ _ _ _ _ _ _ Hdec Hrun).
    reflexivity.
  - intros bad e rest Hbad. unfold terminate_instances, bind.
    rewrite (terminate_each_prefix _ _ _ _ _ _ _ Hdec Hrun).
    cbn. unfold bind, lift. by rewrite Hbad.
Qed.

(** X19: [describe_instances] with a list of ids decodes them all before it
    asks the compute manager for any: an id that does not decode fails
    the call with nothing read and nothing written. *)
Theorem describe_instances_decodes_first
    (context : RequestContext) (good : list string) (decoded : list Z)
    (bad : string) (e : exn) (rest : list string) (kwargs : gmap string pyval)
    (w : World) :
  Forall2 (λ ec2_id id, ec2_id_to_id ec2_id = Ok id) good decoded →
  ec2_id_to_id bad = Raise e →
  describe_instances context (Some (good ++ bad :: rest)%list) kwargs w = (Raise e, w).
Proof.
  intros Hdec Hbad. unfold describe_instances, _format_instances.
  assert (Hloop : for_each (λ x, lift (ec2_id_to_id x)) (good ++ bad :: rest)%list w
                  = (Raise e, w)).
  { clear kwargs.
    induction Hdec as [|ec2_id id good decoded Hid _ IH]; cbn [for_each app].
    - unfold bind, lift. by rewrite Hbad.
    - unfold bind at 1. unfold lift at 1. rewrite Hid. unfold bind at 1.
      by rewrite IH. }
  destruct (good ++ bad :: rest)%list as [|first others] eqn:Hids;
    [by destruct good|].
  unfold bind. by rewrite Hloop.
Qed.

End Terminate.

Section Images.

Context `{Collaborators} `{Services}.

(** X20: The check of [user_group] in [modify_image_attribute], for the
    attribute [launchPermission]: an empty list fails with IndexError; a
    list of one group passes whatever the group; a longer list passes
    only when its first group is "all".  What passes and names an
    operation among "add" and "remove" is written to the audit log and
    handed to the image service; every failure leaves the world as it
    was. *)
Theorem modify_image_attribute_user_group
    (context : RequestContext) (image_id operation_type : pyval) (w : World) :
  let modify := modify_image_attribute context image_id (PStr "launchPermission")
                                       operation_type in
  let accepted :=
    if py_in operation_type [PStr "add"; PStr "remove"]
    then bind (LOG_audit ("Updating image " +:+ py_str image_id +:+ " publicity"))
              (λ _, image_modify context image_id operation_type) w
    else (Raise (ApiError "operation_type must be add or remove"), w) in
  let refused :=
    (Raise (ApiError ("only group " +:+ double_quote +:+ "all" +:+ double_quote
                      +:+ " is supported")), w) in
  modify None w = (Raise (ApiError "user or group not specified"), w)
  ∧ modify (Some []) w = (Raise IndexError, w)
  ∧ (∀ group, modify (Some [group]) w = accepted)
  ∧ (∀ first second rest,
       modify (Some (first :: second :: rest)) w
       = if py_eqb first (PStr "all") then accepted else refused).
Proof.
  intros modify accepted refused. unfold modify, accepted, refused.
  unfold modify_image_attribute.
  assert (Hlp : negb (py_eqb (PStr "launchPermission") (PStr "launchPermission")) = false)
    by reflexivity.
  rewrite Hlp. repeat split.
  - intros group. cbn [length Nat.eqb negb]. unfold bind at 1, ret at 1.
    by destruct (py_in operation_type _).
  - intros first second rest. cbn [length Nat.eqb negb]. unfold bind at 1, ret at 1.
    destruct (py_eqb first (PStr "all")); cbn [negb]; [|reflexivity].
    by destruct (py_in operation_type _).
Qed.

(** X21: [describe_image_attribute] for [launchPermission]: an IndexError of
    the image service becomes the error "invalid id: ..."; any other
    error passes as it is; for an image found, the launch permission is
    the one group "all" when the image is public and empty when it is
    not. *)
Theorem describe_image_attribute_launch_permission
    (context : RequestContext) (image_id : pyval) (w w' : World) :
  let describe := describe_image_attribute context image_id (PStr "launchPermission") in
  (image_show context image_id w = (Raise IndexError, w') →
   describe w = (Raise (ApiError ("invalid id: " +:+ py_str image_id)), w'))
  ∧ (∀ e, e ≠ IndexError →
          image_show context image_id w = (Raise e, w') →
          describe w = (Raise e, w'))
  ∧ (∀ image,
       image_show context image_id w = (Ok image, w') →
       ∃ item,
         describe w = (Ok item, w')
         ∧ attr_image_id item = image_id
         ∧ launchPermission item
           = if truthy (img_isPublic image) then [ {[ "group" := PStr "all" ]} ] else []).
Proof.
  intros describe. unfold describe, describe_image_attribute.
  assert (Hlp : negb (py_eqb (PStr "launchPermission") (PStr "launchPermission")) = false)
    by reflexivity.
  rewrite Hlp. unfold bind, try_except, raise, ret.
  repeat split.
  - by intros ->.
  - intros e He ->. by destruct e.
  - intros image ->. eexists. repeat split.
Qed.

(** X22: [describe_volumes] with no list of ids formats every volume; with a
    list it formats the volumes whose id is in it, so that with an empty
    list it returns nothing. *)
Theorem describe_volumes_filter
    (context : RequestContext) (w w' : World) (volumes : list Volume) :
  volume_get_all context w = (Ok volumes, w') →
  describe_volumes context None w = (Ok (map (_format_volume context) volumes), w')
  ∧ describe_volumes context (Some []) w = (Ok [], w')
  ∧ (∀ ids items,
       describe_volumes context (Some ids) w = (Ok items, w') →
       ∀ item, In item items →
               ∃ v, In v volumes ∧ py_in (vol_id v) ids = true
                    ∧ item = _format_volume context v).
Proof.
  intros Hall. unfold describe_volumes, bind, ret. rewrite Hall. split; [|split].
  - f_equal. f_equal. f_equal. clear Hall. induction volumes as [|v vs IH]; simpl; congruence.
  - f_equal. f_equal. clear Hall. by induction volumes.
  - intros ids items [= <-] item Hin.
    apply in_map_iff in Hin as (v & <- & Hv). apply List.filter_In in Hv as [Hv Hid].
    by exists v.
Qed.

End Images.

Section Addresses.

Context `{Collaborators} `{Services}.


End Addresses.

(** X24: [StrWrapper.__getitem__] returns the string of the first value that
    is true among the attributes of that name of its context objects,
    and raises KeyError when none is: an attribute that is 0, empty or
    [False] counts for an attribute that is not there. *)
Theorem StrWrapper_getitem_first_true
    {A : Type} (getattr : A → string → option pyval) (context_objs : list A)
    (name : string) :
  let value context := default (PBool false) (getattr context name) in
  (Forall (λ context, truthy (value context) = false) context_objs →
   flags.StrWrapper_getitem getattr context_objs name = Raise (KeyError name))
  ∧ (∀ before context after,
       context_objs = (before ++ context :: after)%list →
       Forall (λ context, truthy (value context) = false) before →
       truthy (value context) = true →
       flags.StrWrapper_getitem getattr context_objs name = Ok (py_str (value context))).
Proof.
  intros value. split.
  - induction 1 as [|context rest Hfalse _ IH]; simpl; [reflexivity|].
    fold (value context). by rewrite Hfalse.
  - intros before context after -> Hbefore Htrue.
    induction Hbefore as [|c rest Hfalse _ IH]; simpl.
    + fold (value context). by rewrite Htrue.
    + fold (value c). by rewrite Hfalse.
Qed.

Section Grouping.

Context `{Collaborators}.

Lemma zone_by_host context host w :
  _get_availability_zone_by_host context host w = (Ok (zone_of_host w host), w).
Proof.
  unfold _get_availability_zone_by_host, db.service_get_all_by_host, zone_of_host.
  unfold bind, ret. by destruct (List.filter _ _).
Qed.

Lemma group_by_reservation_seen context w instances :
  ∀ seen reservations,
    groups_seen context w seen reservations →
    ∃ final,
      group_by_reservation context instances reservations w = (Ok final, w)
      ∧ groups_seen context w (seen ++ instances) final.
Proof.
  induction instances as [|instance instances IH]; intros seen reservations Hseen.
  - exists reservations. rewrite app_nil_r. by split.
  - cbn [group_by_reservation].
    replace (seen ++ instance :: instances)%list
      with ((seen ++ [instance]) ++ instances)%list by (by rewrite <- app_assoc).
    destruct Hseen as [Hsound Hcomplete].
    destruct (negb (ctx_user_is_admin context)
              && String.eqb (inst_image_id instance) FLAGS_vpn_image_id) eqn:Hskip.
    + assert (Hnot : listed context instance = false).
      { unfold listed. apply andb_prop in Hskip as [Hadmin ->].
        apply negb_true_iff in Hadmin. by rewrite Hadmin. }
      apply IH. split.
      * intros rid r Hr. destruct (Hsound rid r Hr) as (Hid & Hne & Hitems).
        repeat split; try assumption. intros item Hitem.
        destruct (Hitems item Hitem) as (i & Hi & Hrest).
        exists i. split; [apply in_or_app; by left|assumption].
      * intros i Hi Hlisted. apply in_app_or in Hi as [Hi|[<-|[]]];
          [by apply Hcomplete|congruence].
    + assert (Hlisted : listed context instance = true).
      { unfold listed. apply andb_false_iff in Hskip as [Hadmin| ->].
        - apply negb_false_iff in Hadmin. by rewrite Hadmin.
        - apply orb_true_r. }
      unfold bind at 1. rewrite zone_by_host.
      fold (item_of context w instance).
      set (rid := inst_reservation_id instance).
      set (r := match reservations !! rid with
                | Some r => r
                | None => {| reservationId := rid;
                             ownerId := inst_project_id instance;
                             groupSet := _convert_to_set (Some []) "groups";
                             instancesSet := [] |}
                end).
      assert (Hr : reservationId r = rid
                   ∧ ∀ item, In item (instancesSet r) →
                             ∃ i, In i seen ∧ listed context i = true
                                  ∧ inst_reservation_id i = rid
                                  ∧ item = item_of context w i).
      { unfold r. destruct (reservations !! rid) as [r0|] eqn:Hr0.
        - destruct (Hsound rid r0 Hr0) as (? & _ & ?). by split.
        - split; [reflexivity|]. intros item []. }
      destruct Hr as [Hrid Hritems].
      apply IH. split.
      * intros rid' r' Hr'. destruct (decide (rid = rid')) as [<-|Hne].
        -- rewrite lookup_insert_eq in Hr'. injection Hr' as <-. simpl.
           repeat split; [assumption|by destruct (instancesSet r)|].
           intros item Hitem. apply in_app_or in Hitem as [Hitem|[<-|[]]].
           ++ destruct (Hritems item Hitem) as (i & Hi & Hrest).
              exists i. split; [apply in_or_app; by left|assumption].
           ++ exists instance. repeat split; [|assumption].
              apply in_or_app. right. by left.
        -- rewrite lookup_insert_ne in Hr' by assumption.
           destruct (Hsound rid' r' Hr') as (Hid & Hne' & Hitems).
           repeat split; try assumption. intros item Hitem.
           destruct (Hitems item Hitem) as (i & Hi & Hrest).
           exists i. split; [apply in_or_app; by left|assumption].
      * intros i Hi Hl. apply in_app_or in Hi as [Hi|[<-|[]]].
        -- destruct (Hcomplete i Hi Hl) as (r0 & Hr0 & Hin).
           destruct (decide (rid = inst_reservation_id i)) as [Heq|Hne].
           ++ rewrite <- Heq in *. rewrite lookup_insert_eq. eexists. split; [reflexivity|].
              simpl. apply in_or_app. left. unfold r. by rewrite Hr0.
           ++ rewrite lookup_insert_ne by assumption. eauto.
        -- fold rid. rewrite lookup_insert_eq. eexists. split; [reflexivity|].
           simpl. apply in_or_app. right. by left.
Qed.

(** The reservations [_format_instances] returns for a listing. *)
Lemma format_instances_listing context kwargs w w1 instances :
  compute_get_all context kwargs w = (Ok instances, w1) →
  ∃ final,
    _format_instances context None kwargs w = (Ok (map snd (map_to_list final)), w1)
    ∧ groups_seen context w1 instances final.
Proof.
  intros Hall. unfold _format_instances. unfold bind at 1 2. rewrite Hall.
  destruct (group_by_reservation_seen context w1 instances [] ∅) as (final & Hrun & Hseen).
  { split; [intros rid r Hr; by rewrite lookup_empty in Hr|intros i []]. }
  exists final. unfold bind. by rewrite Hrun.
Qed.

(** X25: A listing of instances is grouped by reservation: the entries have
    different reservation ids, none is empty, each holds only instances
    of its reservation that the caller is shown, and every instance the
    caller is shown is in the entry of its reservation. *)
Theorem format_instances_grouped
    (context : RequestContext) (kwargs : gmap string pyval) (w w1 : World)
    (instances : list Instance) :
  compute_get_all context kwargs w = (Ok instances, w1) →
  ∃ reservations,
    _format_instances context None kwargs w = (Ok reservations, w1)
    ∧ NoDup (map reservationId reservations)
    ∧ (∀ r, In r reservations →
            instancesSet r ≠ []
            ∧ ∀ item, In item (instancesSet r) →
                      ∃ instance, In instance instances ∧ listed context instance = true
                                  ∧ inst_reservation_id instance = reservationId r
                                  ∧ item = item_of context w1 instance)
    ∧ (∀ instance,
         In instance instances → listed context instance = true →
         ∃ r, In r reservations ∧ reservationId r = inst_reservation_id instance
              ∧ In (item_of context w1 instance) (instancesSet r)).
Proof.
  intros Hall.
  destruct (format_instances_listing _ _ _ _ _ Hall) as (final & Hrun & Hsound & Hcomplete).
  eexists. split; [exact Hrun|]. split; [|split].
  - replace (map reservationId (map snd (map_to_list final)))
      with (map fst (map_to_list final)); [apply NoDup_fst_map_to_list|].
    rewrite map_map. apply map_ext_in. intros [rid r] Hin. simpl.
    apply list_elem_of_In, elem_of_map_to_list in Hin.
    by destruct (Hsound rid r Hin) as (-> & _).
  - intros r Hin. apply in_map_iff in Hin as ([rid r'] & <- & Hin). simpl.
    apply list_elem_of_In, elem_of_map_to_list in Hin.
    destruct (Hsound rid r' Hin) as (-> & Hne & Hitems). by split.
  - intros instance Hin Hlisted.
    destruct (Hcomplete instance Hin Hlisted) as (r & Hr & Hitem).
    exists r. split; [|split; [|assumption]].
    + apply in_map_iff. exists (inst_reservation_id instance, r). split; [reflexivity|].
      by apply list_elem_of_In, elem_of_map_to_list.
    + by destruct (Hsound _ r Hr) as (-> & _).
Qed.


End Grouping.

(* ===================================================================== *)
(** * The properties at work on the sample site                           *)
(* ===================================================================== *)

Lemma create_key_pair_twice_witness :
  ∃ item w1 w2,
    create_key_pair (H := Sample.collaborators) Sample.context "desktop" Sample.world
    = (Ok item, w1)
    ∧ create_key_pair (H := Sample.collaborators) Sample.context "desktop" w1
      = (Raise (Duplicate "The key_pair desktop already exists"), w2)
    ∧ key_pairs w2 = key_pairs w1
    ∧ keys_generated w2 = 1%nat.
Proof.
  apply (create_key_pair_twice (H := Sample.collaborators) Sample.context "desktop"
           Sample.world).
  vm_compute. reflexivity.
Defined.

Lemma create_key_pair_others_witness :
  key_pairs (snd (create_key_pair (H := Sample.collaborators) Sample.context "desktop"
                                  Sample.world)) !! ("alice", "laptop")
  = key_pairs Sample.world !! ("alice", "laptop").
Proof.
  apply (create_key_pair_others (H := Sample.collaborators) Sample.context "desktop"
           Sample.world ("alice", "laptop")).
  discriminate.
Defined.

Lemma delete_after_create_witness :
  fst (delete_key_pair Sample.context "desktop"
         (snd (create_key_pair (H := Sample.collaborators) Sample.context "desktop"
                               Sample.world))) = Ok true
  ∧ key_pairs (snd (delete_key_pair Sample.context "desktop"
                      (snd (create_key_pair (H := Sample.collaborators) Sample.context
                                            "desktop" Sample.world))))
    = key_pairs Sample.world.
Proof.
  apply (delete_after_create (H := Sample.collaborators) Sample.context "desktop"
           Sample.world).
  vm_compute. reflexivity.
Defined.

Lemma describe_key_pairs_lists_witness :
  ∃ entries,
    describe_key_pairs (H0 := Site.managers) Sample.context None Site.stored
    = (Ok entries, Site.stored)
    ∧ In {| entry_keyName := "laptop"; entry_keyFingerprint := "fingerprint" |} entries
    ∧ ¬ In {| entry_keyName := "proj-vpn"; entry_keyFingerprint := "fingerprint-vpn" |}
           entries.
Proof.
  destruct (describe_key_pairs_lists (H0 := Site.managers) Sample.context None Site.stored)
    as (entries & Hrun & Hspec & Hvpn).
  exists entries. split; [exact Hrun|]. split.
  - apply Hspec.
    exists ("alice", "laptop"),
      {| kp_user_id := "alice"; kp_name := "laptop";
         kp_public_key := "public"; kp_fingerprint := "fingerprint" |}.
    split; [vm_compute; reflexivity|]. split; [reflexivity|]. split; [exact I|].
    split; [right; vm_compute; reflexivity|reflexivity].
  - intros Hin. apply (Hvpn eq_refl) in Hin. vm_compute in Hin. discriminate Hin.
Defined.

Lemma canonical_value_set_witness :
  let values : gmap string pyval :=
    <["to_port" := PInt 80]> (<["from_port" := PInt 80]>
    (<["protocol" := PStr "udp"]> {[ "cidr" := PStr "0.0.0.0/0" ]})) in
  (is_Some (values !! "cidr") ↔ values !! "group_id" = None)
  ∧ ∀ key, is_Some (values !! key) →
           In key ["cidr"; "group_id"; "protocol"; "from_port"; "to_port"].
Proof.
  intros values.
  assert (Hrun : _revoke_rule_args_to_dict (H := Sample.collaborators) Sample.context
                   (Sample.ports (PStr "udp") (PStr "80") (PStr "80")) Sample.world
                 = (Ok (Some values), Sample.world))
    by (vm_compute; reflexivity).
  destruct (canonical_value_set (H := Sample.collaborators) _ _ _ _ _ Hrun)
    as (Hone & _ & Hkeys).
  split; assumption.
Defined.

Lemma canonical_ports_in_range_witness :
  let values : gmap string pyval :=
    <["to_port" := PInt 80]> (<["from_port" := PInt 80]>
    (<["protocol" := PStr "udp"]> {[ "cidr" := PStr "0.0.0.0/0" ]})) in
  ∃ f t,
    values !! "from_port" = Some (PInt f) ∧ values !! "to_port" = Some (PInt t)
    ∧ -1 ≤ f ≤ 65535 ∧ -1 ≤ t ≤ 65535
    ∧ values !! "protocol" = Some (PStr "udp")
    ∧ In "UDP" ["TCP"; "UDP"; "ICMP"].
Proof.
  intros values.
  assert (Hrun : _revoke_rule_args_to_dict (H := Sample.collaborators) Sample.context
                   (Sample.ports (PStr "udp") (PStr "80") (PStr "80")) Sample.world
                 = (Ok (Some values), Sample.world))
    by (vm_compute; reflexivity).
  apply (canonical_ports_in_range (H := Sample.collaborators) _ _ _ _ _ Hrun).
  vm_compute. eauto.
Defined.





Lemma format_security_group_entries_witness :
  ∃ item,
    _format_security_group Sample.context Sample.web Sample.world = (Ok item, Sample.world)
    ∧ length (ipPermissions item) = 4%nat
    ∧ Forall (λ p, (length (groups p) + length (ipRanges p))%nat = 1%nat)
             (ipPermissions item).
Proof.
  destruct (_format_security_group Sample.context Sample.web Sample.world)
    as [[item|e] w'] eqn:Hrun; [|vm_compute in Hrun; discriminate Hrun].
  destruct (format_security_group_entries Sample.context Sample.web Sample.world w' item
              Hrun) as (-> & _ & _ & Hshows & Hone).
  exists item. split; [reflexivity|]. split; [|assumption].
  apply Forall2_length in Hshows. rewrite <- Hshows. vm_compute. reflexivity.
Defined.

Lemma describe_availability_zones_once_witness :
  ∃ zones,
    _describe_availability_zones (H0 := Site.managers) Sample.context Sample.world
    = (Ok zones, Sample.world)
    ∧ NoDup (map zoneName zones)
    ∧ In {| zoneName := "east"; zoneState := "available" |} zones
    ∧ In {| zoneName := "west"; zoneState := "not available" |} zones
    ∧ ¬ In {| zoneName := "east"; zoneState := "not available" |} zones.
Proof.
  destruct (describe_availability_zones_once (H0 := Site.managers) Sample.context
              Sample.world Sample.world Sample.world
              [Site.service "node1" "east"; Site.service "node2" "east"]
              [Site.service "node3" "east"; Site.service "node4" "west";
               Site.service "node5" "west"] eq_refl eq_refl)
    as (zones & Hrun & Hnodup & Havail & Hnot).
  exists zones. split; [exact Hrun|]. split; [exact Hnodup|]. split; [|split].
  - apply Havail. simpl. tauto.
  - apply Hnot. simpl. split; [tauto|]. intros [[=]|[[=]|[]]].
  - intros Hin. apply Hnot in Hin as [_ Hno]. apply Hno. simpl. tauto.
Defined.

Lemma update_volume_calls_witness :
  update_volume (H0 := Site.managers) Sample.context (PInt 1) ∅ Site.stored
  = (Ok true, Site.stored)
  ∧ update_volume (H0 := Site.managers) Sample.context (PInt 1)
                  {[ "display_name" := PStr "disk" ]} Site.stored
    = bind (volume_update (Services := Site.managers) Sample.context (PInt 1)
                          {[ "display_name" := PStr "disk" ]})
           (λ _, ret true) Site.stored.
Proof.
  split.
  - apply (update_volume_calls (H0 := Site.managers)); apply lookup_empty.
  - apply (update_volume_calls (H0 := Site.managers)). left.
    rewrite lookup_singleton_eq. eauto.
Defined.

Lemma update_instance_calls_witness :
  update_instance (H0 := Site.managers) Sample.context "no id at all" ∅ Site.stored
  = (Ok true, Site.stored)
  ∧ update_instance (H0 := Site.managers) Sample.context "i-?"
                    {[ "display_name" := PStr "box" ]} Site.stored
    = (Raise ValueError, Site.stored).
Proof.
  split.
  - apply (update_instance_calls (H0 := Site.managers)); apply lookup_empty.
  - apply (update_instance_calls (H0 := Site.managers)).
    + left. rewrite lookup_singleton_eq. eauto.
    + vm_compute. reflexivity.
Defined.

Lemma terminate_instances_one_by_one_witness :
  ∃ w',
    audit_log w' = ["delete 1"; "delete 2"]
    ∧ terminate_instances (H0 := Site.managers) Sample.context ["i-1"; "i-2"] Site.stored
      = (Ok true, w')
    ∧ terminate_instances (H0 := Site.managers) Sample.context
                          ["i-1"; "i-2"; "i-?"; "i-3"] Site.stored
      = (Raise ValueError, w').
Proof.
  destruct (for_each (compute_delete (Services := Site.managers) Sample.context) [1; 2]
                     Site.stored) as [[units|e] w'] eqn:Hrun;
    [|vm_compute in Hrun; discriminate Hrun].
  assert (Hlog : audit_log w' = ["delete 1"; "delete 2"]).
  { assert (Hsnd : w' = snd (for_each (compute_delete (Services := Site.managers)
                                         Sample.context) [1; 2] Site.stored))
      by (rewrite Hrun; reflexivity).
    rewrite Hsnd. vm_compute. reflexivity. }
  assert (Hdec : Forall2 (λ ec2_id id, ec2_id_to_id ec2_id = Ok id) ["i-1"; "i-2"] [1; 2]).
  { repeat constructor; vm_compute; reflexivity. }
  destruct (terminate_instances_one_by_one (H0 := Site.managers) Sample.context
              ["i-1"; "i-2"] [1; 2] Site.stored w' units Hdec Hrun) as [Hall Hbad].
  exists w'. split; [exact Hlog|]. split; [exact Hall|].
  apply (Hbad "i-?" ValueError ["i-3"]). vm_compute. reflexivity.
Defined.

Lemma describe_instances_decodes_first_witness :
  describe_instances (H := Site.listing) Sample.context
                     (Some ["i-1"; "i-?"; "i-2"]) ∅ Site.stored
  = (Raise ValueError, Site.stored).
Proof.
  apply (describe_instances_decodes_first (H := Site.listing) Sample.context
           ["i-1"] [1] "i-?" ValueError ["i-2"]).
  - repeat constructor; vm_compute; reflexivity.
  - vm_compute. reflexivity.
Defined.

Lemma describe_image_attribute_launch_permission_witness :
  describe_image_attribute (H0 := Site.managers) Sample.context (PStr "ami-9")
                           (PStr "launchPermission") Site.stored
  = (Raise (ApiError "invalid id: ami-9"), Site.stored)
  ∧ ∃ item,
      describe_image_attribute (H0 := Site.managers) Sample.context (PStr "ami-1")
                               (PStr "launchPermission") Site.stored
      = (Ok item, Site.stored)
      ∧ launchPermission item = [ {[ "group" := PStr "all" ]} ].
Proof.
  split.
  - apply (proj1 (describe_image_attribute_launch_permission (H0 := Site.managers)
                    Sample.context (PStr "ami-9") Site.stored Site.stored)).
    vm_compute. reflexivity.
  - destruct (describe_image_attribute_launch_permission (H0 := Site.managers)
                Sample.context (PStr "ami-1") Site.stored Site.stored)
      as (_ & _ & Hfound).
    destruct (Hfound Site.public_image) as (item & Hrun & _ & Hperm).
    { vm_compute. reflexivity. }
    exists item. split; assumption.
Defined.

Lemma describe_volumes_filter_witness :
  describe_volumes (H0 := Site.managers) Sample.context None Site.stored
  = (Ok (map (_format_volume Sample.context)
             [Sample.volume "detached"; Sample.volume "attached"]), Site.stored)
  ∧ describe_volumes (H0 := Site.managers) Sample.context (Some []) Site.stored
    = (Ok [], Site.stored).
Proof.
  destruct (describe_volumes_filter (H0 := Site.managers) Sample.context Site.stored
              Site.stored [Sample.volume "detached"; Sample.volume "attached"])
    as (Hnone & Hempty & _).
  { vm_compute. reflexivity. }
  split; assumption.
Defined.


Lemma StrWrapper_getitem_first_true_witness :
  let unset : gmap string pyval := {[ "state_path" := PStr "" ]} in
  let set : gmap string pyval := {[ "state_path" := PStr "/var/lib/nova" ]} in
  flags.StrWrapper_getitem Site.flag_values [unset; ∅] "state_path"
  = Raise (KeyError "state_path")
  ∧ flags.StrWrapper_getitem Site.flag_values [unset; ∅; set; unset] "state_path"
    = Ok "/var/lib/nova".
Proof.
  intros unset set.
  assert (Hunset : truthy (default (PBool false) (Site.flag_values unset "state_path"))
                   = false) by (vm_compute; reflexivity).
  assert (Hempty : truthy (default (PBool false) (Site.flag_values ∅ "state_path"))
                   = false) by (vm_compute; reflexivity).
  assert (Hset : truthy (default (PBool false) (Site.flag_values set "state_path"))
                 = true) by (vm_compute; reflexivity).
  assert (Hvalue : py_str (default (PBool false) (Site.flag_values set "state_path"))
                   = "/var/lib/nova") by (vm_compute; reflexivity).
  split.
  - apply (StrWrapper_getitem_first_true Site.flag_values [unset; ∅] "state_path").
    repeat constructor; assumption.
  - rewrite <- Hvalue.
    apply (StrWrapper_getitem_first_true Site.flag_values [unset; ∅; set; unset]
             "state_path") with (before := [unset; ∅]) (after := [unset]).
    + reflexivity.
    + repeat constructor; assumption.
    + exact Hset.
Defined.

Lemma format_instances_grouped_witness :
  ∃ reservations,
    _format_instances (H := Site.listing) Site.admin None ∅ Site.stored
    = (Ok reservations, Site.stored)
    ∧ NoDup (map reservationId reservations)
    ∧ ∃ r, In r reservations ∧ reservationId r = "r-2"
           ∧ In (item_of (H := Site.listing) Site.admin Site.stored Site.vpn_instance)
                (instancesSet r).
Proof.
  destruct (format_instances_grouped (H := Site.listing) Site.admin ∅ Site.stored
              Site.stored [Sample.instance 1 "r-1"; Site.vpn_instance; Sample.instance 2 "r-1"])
    as (reservations & Hrun & Hnodup & _ & Hcomplete).
  { vm_compute. reflexivity. }
  exists reservations. split; [exact Hrun|]. split; [exact Hnodup|].
  apply (Hcomplete Site.vpn_instance).
  - right. left. reflexivity.
  - vm_compute. reflexivity.
Defined.

